(** * gesher: the reconciler's act stage and the admission proxy's dispatch

    A shallow embedding of two packages of the repository:

    - [Controller] follows [pkg/controller/proxyvalidatingtype/act.go]:
      [act], [manageGeneration], [manageFinalizer], [manageWebhookConfig],
      [containsString] and [removeString];
    - [AdmissionProxy] follows the dispatch file of package
      [admission_proxy]: [findWebhooks], [checkWebhooks], [doWebhook],
      [toFailure] and [errToFailure].

    Go's [error] values are their messages; a [nil] error is [None].
    Calls to the logger are left out: no function reads the log back. *)

From Stdlib Require Import ZArith Lia Ascii String List.
From stdpp Require Import gmap strings list fin_maps.

Open Scope string_scope.

(** Go's [error], by its message. *)
Definition error : Type := string.

(* ===================================================================== *)
(** ** Package [proxyvalidatingtype]: act.go                              *)
(* ===================================================================== *)

Module Controller.

Definition typeFinalizer : string := "type.finalizer.gesher".

(** [containsString]: the loop returns at the first equal item. *)
Fixpoint containsString (slice : list string) (s : string) : bool :=
  match slice with
  | [] => false
  | item :: rest => if String.eqb item s then true else containsString rest s
  end.

(** [removeString]: every item equal to [s] is skipped, the others are
    appended to the result in order. *)
Fixpoint removeString (slice : list string) (s : string) : list string :=
  match slice with
  | [] => []
  | item :: rest =>
      if String.eqb item s then removeString rest s
      else item :: removeString rest s
  end.

(** The fields of the custom resource that act.go reads and writes:
    [ObjectMeta.Finalizers], [Generation] and [Status.ObservedGeneration]
    (both int64 in the Kubernetes API, compared and copied only). *)
Record ProxyValidatingType := {
  Generation : Z;
  Finalizers : list string;
  ObservedGeneration : Z
}.

Definition set_Finalizers (cr : ProxyValidatingType) (f : list string) :=
  {| Generation := Generation cr; Finalizers := f;
     ObservedGeneration := ObservedGeneration cr |}.

Definition set_ObservedGeneration (cr : ProxyValidatingType) (g : Z) :=
  {| Generation := Generation cr; Finalizers := Finalizers cr;
     ObservedGeneration := g |}.

Section Act.

(** The generated cluster webhook object and the rule-set aggregate are
    only passed along by act.go: their types stay abstract. *)
Context {ValidatingWebhookConfiguration ProxyTypeData : Type}.

(** [analyzedState], with the fields act.go uses. [customResource] is a
    pointer in the source: the functions below return the state they
    leave behind. *)
Record analyzedState := {
  customResource : ProxyValidatingType;
  webhook : ValidatingWebhookConfiguration;
  newProxyTypeData : ProxyTypeData;
  create : bool;
  update : bool;
  delete : bool
}.

Definition set_customResource (st : analyzedState) (cr : ProxyValidatingType) :=
  {| customResource := cr; webhook := webhook st;
     newProxyTypeData := newProxyTypeData st;
     create := create st; update := update st; delete := delete st |}.

(** What [client.Client] is asked to write. *)
Inductive Object :=
| WebhookObject (w : ValidatingWebhookConfiguration)
| ResourceObject (cr : ProxyValidatingType).

Inductive Verb := Create | Update | StatusUpdate.

(** What one [act] leaves in the world, in order: the client calls with
    their results, and the assignment to the package variable
    [proxyTypeData]. *)
Inductive Event :=
| Called (v : Verb) (o : Object) (res : option error)
| Published (d : ProxyTypeData).

Record World := {
  events : list Event;
  proxyTypeData : ProxyTypeData
}.

(** The API server behind the client: whether a write fails may depend on
    everything that happened before it. *)
Variable apiserver : list Event -> Verb -> Object -> option error.

Definition M (A : Type) : Type := World -> A * World.

Definition ret {A} (a : A) : M A := fun w => (a, w).
Definition bind {A B} (m : M A) (k : A -> M B) : M B :=
  fun w => let '(a, w1) := m w in k a w1.

Notation "'do' x <- m ; k" := (bind m (fun x => k))
  (at level 10, x name, m at level 100, k at level 200).

Definition call (v : Verb) (o : Object) : M (option error) :=
  fun w =>
    let res := apiserver (events w) v o in
    (res, {| events := events w ++ [Called v o res];
             proxyTypeData := proxyTypeData w |}).

Definition publish (d : ProxyTypeData) : M unit :=
  fun w => (tt, {| events := events w ++ [Published d]; proxyTypeData := d |}).

(** [manageGeneration] *)
Definition manageGeneration (state : analyzedState) : bool * analyzedState :=
  let cr := customResource state in
  if negb (ObservedGeneration cr =? Generation cr)%Z then
    (true, set_customResource state (set_ObservedGeneration cr (Generation cr)))
  else (false, state).

(** [manageFinalizer] *)
Definition manageFinalizer (state : analyzedState) : bool * analyzedState :=
  let cr := customResource state in
  match delete state with
  | false =>
      if negb (containsString (Finalizers cr) typeFinalizer) then
        (true, set_customResource state
                 (set_Finalizers cr (Finalizers cr ++ [typeFinalizer])))
      else (false, state)
  | true =>
      if containsString (Finalizers cr) typeFinalizer then
        (true, set_customResource state
                 (set_Finalizers cr (removeString (Finalizers cr) typeFinalizer)))
      else (false, state)
  end.

(** [manageWebhookConfig]: both branches return the client's error. *)
Definition manageWebhookConfig (state : analyzedState) : M (option error) :=
  if create state then
    do err <- call Create (WebhookObject (webhook state));
    match err with
    | Some e => ret (Some e)
    | None => ret None
    end
  else
    do err <- call Update (WebhookObject (webhook state));
    match err with
    | Some e => ret (Some e)
    | None => ret None
    end.

(** [act]. The result carries the state behind the [state] pointer. *)
Definition act (state : analyzedState) : M (option error * analyzedState) :=
  do err <- (if update state then manageWebhookConfig state else ret None);
  match err with
  | Some e => ret (Some e, state)
  | None =>
      let '(r1, state1) := manageFinalizer state in
      let fullChange := r1 || false in
      let '(r2, state2) := manageGeneration state1 in
      let statusChange := r2 || false in
      do err <- (if fullChange then
                   call Update (ResourceObject (customResource state2))
                 else if statusChange then
                   call StatusUpdate (ResourceObject (customResource state2))
                 else ret None);
      match err with
      | Some e => ret (Some e, state2)
      | None =>
          do _u <- publish (newProxyTypeData state2);
          ret (None, state2)
      end
  end.

(** Reading the events of a cycle: the writes of the custom resource (a
    full-object update, a status-only update) and the publication. *)
Definition is_full_update (e : Event) : bool :=
  match e with
  | Called Update (ResourceObject _) _ => true
  | _ => false
  end.

Definition is_status_update (e : Event) : bool :=
  match e with
  | Called StatusUpdate (ResourceObject _) _ => true
  | _ => false
  end.

Definition is_resource_write (e : Event) : bool :=
  match e with
  | Called _ (ResourceObject _) _ => true
  | _ => false
  end.

Definition is_webhook_apply (e : Event) : bool :=
  match e with
  | Called _ (WebhookObject _) _ => true
  | _ => false
  end.

Definition is_publication (e : Event) : bool :=
  match e with
  | Published _ => true
  | _ => false
  end.

Definition succeeded (e : Event) : bool :=
  match e with
  | Called _ _ None => true
  | _ => false
  end.

Definition count (f : Event -> bool) (evs : list Event) : nat :=
  length (List.filter f evs).

(** The call [manageWebhookConfig] makes for a state. *)
Definition webhook_verb (state : analyzedState) : Verb :=
  if create state then Create else Update.

Definition is_call (e : Event) : bool :=
  match e with
  | Called _ _ _ => true
  | _ => false
  end.

End Act.

(** *** proxyvalidatingtype_controller.go: [Reconcile] *)

(** [reconcile.Request] (a namespaced name) and [reconcile.Result]. *)
Record Request := { Namespace : string; Name : string }.

Record Result := { Requeue : bool; RequeueAfter : Z }.

(** [reconcile.Result{}] *)
Definition no_requeue : Result := {| Requeue := false; RequeueAfter := 0 |}.

(** A Go call returns or panics. *)
Inductive ran (A : Type) : Type :=
| Finished (a : A)
| Crashed (msg : string).
Arguments Finished {A} a.
Arguments Crashed {A} msg.

Section Reconcile.

Context {ValidatingWebhookConfiguration ProxyTypeData observedState : Type}.

Variable apiserver :
  list (@Event ValidatingWebhookConfiguration ProxyTypeData) -> Verb ->
  @Object ValidatingWebhookConfiguration -> option error.

(** [observe] and [analyze] are not in these files: they are parameters,
    run on the world, and return a pointer and an error as the source's
    signatures have it. *)
Variable observe :
  Request -> @M ValidatingWebhookConfiguration ProxyTypeData
               (option observedState * option error).
Variable analyze :
  observedState -> @M ValidatingWebhookConfiguration ProxyTypeData
                     (option (@analyzedState ValidatingWebhookConfiguration
                                ProxyTypeData) * option error).

(** [Reconcile]. A nil [analyzedState] with a nil error reaches
    [state.update] in [act], which dereferences it. *)
Definition Reconcile (request : Request)
    : @M ValidatingWebhookConfiguration ProxyTypeData
        (ran (Result * option error)) :=
  fun w =>
    let '((observedState, err), w1) := observe request w in
    match err with
    | Some e => (Finished (no_requeue, Some e), w1)
    | None =>
        match observedState with
        | None => (Finished (no_requeue, None), w1)
        | Some observed =>
            let '((analyzedState, err), w2) := analyze observed w1 in
            match err with
            | Some e => (Finished (no_requeue, Some e), w2)
            | None =>
                match analyzedState with
                | None =>
                    (Crashed
                       "runtime error: invalid memory address or nil pointer dereference",
                     w2)
                | Some state =>
                    let '((err, _), w3) := act apiserver state w2 in
                    match err with
                    | Some e => (Finished (no_requeue, Some e), w3)
                    | None => (Finished (no_requeue, None), w3)
                    end
                end
            end
        end
    end.

End Reconcile.

End Controller.

(* ===================================================================== *)
(** ** Go library functions used by the admission proxy                   *)
(* ===================================================================== *)

(** Executable models of [strconv.Atoi] and of
    [base64.StdEncoding.DecodeString]. The proxy's definitions below take
    these two functions as parameters; the models here instantiate them on
    concrete configurations. *)
Module GoLib.

Definition is_digit (c : ascii) : bool :=
  let n := N_of_ascii c in ((48 <=? n) && (n <=? 57))%N.

Fixpoint digits_value (acc : Z) (str : string) : option Z :=
  match str with
  | EmptyString => Some acc
  | String c rest =>
      if is_digit c
      then digits_value (10 * acc + Z.of_N (N_of_ascii c) - 48)%Z rest
      else None
  end.

Definition dquote : string := String (ascii_of_nat 34) EmptyString.

(** The text of the error, with the input between plain quotes (Go quotes
    it with [strconv.Quote], which also escapes what is not printable). *)
Definition atoi_error (str reason : string) : error :=
  "strconv.Atoi: parsing " ++ dquote ++ str ++ dquote ++ ": " ++ reason.

(** [strconv.Atoi]: an optional sign, then at least one decimal digit; the
    value has to fit the 64-bit [int]. *)
Definition strconv_Atoi (str : string) : error + Z :=
  let '(neg, ds) :=
    match str with
    | String "-"%char rest => (true, rest)
    | String "+"%char rest => (false, rest)
    | _ => (false, str)
    end in
  match ds with
  | EmptyString => inl (atoi_error str "invalid syntax")
  | _ =>
      match digits_value 0 ds with
      | None => inl (atoi_error str "invalid syntax")
      | Some v =>
          let n := if neg then (- v)%Z else v in
          if ((- 2 ^ 63 <=? n) && (n <? 2 ^ 63))%Z then inr n
          else inl (atoi_error str "value out of range")
      end
  end.

(** The value of a character of the standard base64 alphabet. *)
Definition b64_value (c : ascii) : option N :=
  let n := N_of_ascii c in
  if ((65 <=? n) && (n <=? 90))%N then Some (n - 65)%N
  else if ((97 <=? n) && (n <=? 122))%N then Some (n - 71)%N
  else if ((48 <=? n) && (n <=? 57))%N then Some (n + 4)%N
  else if (n =? 43)%N then Some 62%N
  else if (n =? 47)%N then Some 63%N
  else None.

Definition byte_of (n : N) : ascii := ascii_of_N (n mod 256).

(** Groups of four characters give three bytes; only the last group may be
    padded with [=]. *)
Fixpoint b64_quads (cs : list ascii) : option (list ascii) :=
  match cs with
  | [] => Some []
  | [a; b; c; d] =>
      match b64_value a, b64_value b with
      | Some x, Some y =>
          let b0 := byte_of (x * 4 + y / 16) in
          if Ascii.eqb c "="%char then
            if Ascii.eqb d "="%char then Some [b0] else None
          else
            match b64_value c with
            | None => None
            | Some z =>
                let b1 := byte_of (y * 16 + z / 4) in
                if Ascii.eqb d "="%char then Some [b0; b1]
                else
                  match b64_value d with
                  | None => None
                  | Some t => Some [b0; b1; byte_of (z * 64 + t)]
                  end
            end
      | _, _ => None
      end
  | a :: b :: c :: d :: rest =>
      match b64_value a, b64_value b, b64_value c, b64_value d, b64_quads rest with
      | Some x, Some y, Some z, Some t, Some out =>
          Some (byte_of (x * 4 + y / 16) :: byte_of (y * 16 + z / 4)
                :: byte_of (z * 64 + t) :: out)
      | _, _, _, _, _ => None
      end
  | _ => None
  end.

Definition is_newline (c : ascii) : bool :=
  let n := N_of_ascii c in ((n =? 10) || (n =? 13))%N.

(** [base64.StdEncoding.DecodeString]: carriage returns and line feeds are
    skipped; [None] stands for a non-nil error. *)
Definition base64_DecodeString (str : string) : option string :=
  string_of_list_ascii <$>
    b64_quads (List.filter (fun c => negb (is_newline c)) (list_ascii_of_string str)).

End GoLib.

(* ===================================================================== *)
(** ** Package [admission_proxy]: the dispatch file                       *)
(* ===================================================================== *)

Module AdmissionProxy.

(** A Go call either returns or panics. *)
Inductive exec (A : Type) : Type :=
| Returned (a : A)
| Panicked (msg : string).
Arguments Returned {A} a.
Arguments Panicked {A} msg.

(** The value of the runtime panic on a nil pointer. *)
Definition nil_dereference : string :=
  "runtime error: invalid memory address or nil pointer dereference".

(** [type Webhook map[string]string] *)
Abbreviation Webhook := (gmap string string).

Definition serviceName : string := "service-name".
Definition namespace : string := "namespace".
Definition port : string := "port".
Definition path : string := "path".
Definition caBundle : string := "ca-bundle".

(** Reading a Go map: a missing key reads as the zero value. *)
Definition get (m : gmap string string) (k : string) : string :=
  default EmptyString (m !! k).

(** [os.Getenv] on the process environment: unset reads as empty. *)
Definition Getenv (env : gmap string string) (k : string) : string :=
  default EmptyString (env !! k).

Definition is_empty (str : string) : bool := String.eqb str EmptyString.

(** The fields of [v1beta1.AdmissionRequest] that identify what is asked:
    [Resource.Group], [Resource.Version], [Resource.Resource], [Operation]. *)
Record AdmissionRequest := {
  Group : string;
  Version : string;
  Resource : string;
  Operation : string
}.

(** [metav1.Status], [v1beta1.AdmissionResponse] and
    [v1beta1.AdmissionReview]; [Result] and [Response] are pointers. *)
Record Status := { Message : string }.

Record AdmissionResponse := {
  Allowed : bool;
  Result : option Status
}.

Record AdmissionReview := { Response : option AdmissionResponse }.

(** Modelled from the spec: [approved] is not in the dispatch file; the
    verdict it builds is the spec's Allow, [allowed] true and no message. *)
Definition approved : AdmissionResponse :=
  {| Allowed := true; Result := None |}.

(** Modelled from the spec: [errToAdmissionResponse] is not in the dispatch
    file; the verdict it builds is the spec's Deny with a message, [allowed]
    false and the error's text as the message. *)
Definition errToAdmissionResponse (err : error) : AdmissionResponse :=
  {| Allowed := false; Result := Some {| Message := err |} |}.

(** [admv1beta1.FailurePolicyType] is a string type with two constants. *)
Definition FailurePolicyType : Type := string.
Definition Fail : FailurePolicyType := "Fail".
Definition Ignore : FailurePolicyType := "Ignore".

(** [errToFailure]: the [default] case takes every value but [Fail]. *)
Definition errToFailure (name : string) (err : error)
    (failurePolicy : FailurePolicyType) : option error :=
  if String.eqb failurePolicy Fail
  then Some ("proxied webhook " ++ name ++ " failed: " ++ err)
  else None.

(** [*http.Response]: [RespBody] is [None] for a nil [Body], else what
    [ioutil.ReadAll] gives on it (an error or the bytes). *)
Record HttpResponse := { RespBody : option (error + string) }.

(** [bytes.Reader]: the bytes and the read index. *)
Record Reader := { buf : string; pos : nat }.

Definition Reader_Len (b : Reader) : nat := String.length (buf b) - pos b.

Definition unread (b : Reader) : string :=
  substring (pos b) (Reader_Len b) (buf b).

Definition advance (b : Reader) (n : nat) : Reader :=
  {| buf := buf b; pos := pos b + n |}.

(** The body of an outgoing request: [http.NoBody], or the reader that was
    handed to [http.NewRequestWithContext] (wrapped, not copied). *)
Inductive RequestBody := NoBody | ReaderBody.

(** [*http.Request], for the inbound request and the forwarded one. *)
Record HttpRequest := {
  Method : string;
  URL : string;
  Header : gmap string (list string);
  ContentLength : nat;
  Body : RequestBody
}.

Section Dispatch.

(** Library functions and the world outside the process. *)
Variable base64_DecodeString : string -> option string.
Variable strconv_Atoi : string -> error + Z.
Variable json_Unmarshal : string -> error + AdmissionReview.
Variable CanonicalMIMEHeaderKey : string -> string.
(** Whether [http.NewRequestWithContext] accepts the URL. *)
Variable url_ok : string -> bool.
(** [CertPool.AppendCertsFromPEM]: the certificates found in PEM bytes. *)
Context {Certificate : Type}.
Variable certsFromPEM : string -> list Certificate.

(** [http.Client] with its [tls.Config]: [RootCAs] is a pointer, and nil
    means the host's root set. *)
Record Client := { RootCAs : option (list Certificate) }.

(** One round trip as the network saw it: the client, the request, the
    body bytes that went out, and what came back. *)
Record Exchange := {
  ex_client : Client;
  ex_request : HttpRequest;
  ex_sent : string;
  ex_response : option HttpResponse;
  ex_error : option error
}.

(** What the goroutines of one [checkWebhooks] share: the [body] reader they
    were all given, and the network. *)
Record Net := {
  body : Reader;
  wire : list Exchange
}.

(** What the transport and the peer do with a request, given the exchanges
    so far and the bytes its body can still give: how many of them are
    read, and the response or the error. *)
Record RoundTrip := {
  rt_read : nat;
  rt_response : option HttpResponse;
  rt_error : option error
}.

Variable transport : list Exchange -> Client -> HttpRequest -> string -> RoundTrip.

(** [findWebhooks]. The request is not read. *)
Definition findWebhooks (env : gmap string string) (request : AdmissionRequest)
    : exec (list Webhook) :=
  let webhook : Webhook := ∅ in
  let webhook := <[serviceName := Getenv env "ADM_SERVICE_NAME"]> webhook in
  if is_empty (get webhook serviceName)
  then Panicked "failed to read env variable ADM_SERVICE_NAME" else
  let webhook := <[namespace := Getenv env "ADM_SERVICE_NAMESPACE"]> webhook in
  if is_empty (get webhook namespace)
  then Panicked "failed to read env variable ADM_SERVICE_NAMESPACE" else
  let webhook := <[path := Getenv env "ADM_SERVICE_ENDPOINT"]> webhook in
  if is_empty (get webhook path)
  then Panicked "failed to read env variable ADM_SERVICE_ENDPOINT" else
  let encoded := Getenv env "ADM_SERVICE_CABUNDLE" in
  if is_empty encoded
  then Panicked "failed to read env variable ADM_SERVICE_CABUNDLE" else
  match base64_DecodeString encoded with
  | None => Panicked "failed to base64 decode cabundle"
  | Some data =>
      let webhook := <[caBundle := data]> webhook in
      let webhook := <[port := Getenv env "ADM_SERVICE_PORT"]> webhook in
      if is_empty (get webhook port)
      then Panicked "failed to read env variable ADM_SERVICE_PORT" else
      match strconv_Atoi (get webhook port) with
      | inl err => Panicked ("failed to convert port to an int: " ++ err)
      | inr _ => Returned [webhook]
      end
  end.

(** The configuration the spec asks for, on the environment: the five
    variables are set, the CA bundle decodes and the port converts. *)
Definition config_ok (env : gmap string string) : bool :=
  negb (is_empty (Getenv env "ADM_SERVICE_NAME"))
  && negb (is_empty (Getenv env "ADM_SERVICE_NAMESPACE"))
  && negb (is_empty (Getenv env "ADM_SERVICE_ENDPOINT"))
  && negb (is_empty (Getenv env "ADM_SERVICE_CABUNDLE"))
  && bool_decide (is_Some (base64_DecodeString (Getenv env "ADM_SERVICE_CABUNDLE")))
  && negb (is_empty (Getenv env "ADM_SERVICE_PORT"))
  && match strconv_Atoi (Getenv env "ADM_SERVICE_PORT") with
     | inl _ => false
     | inr _ => true
     end.

(** [toFailure]. A nil [resp] with a nil [httpErr], a review without
    [Response] and a denial without [Result] dereference a nil pointer. *)
Definition toFailure (name : string) (resp : option HttpResponse)
    (httpErr : option error) (failurePolicy : FailurePolicyType)
    : exec (option error) :=
  match httpErr with
  | Some e => Returned (errToFailure name ("http error: " ++ e) failurePolicy)
  | None =>
  match resp with
  | None => Panicked nil_dereference
  | Some resp =>
  match RespBody resp with
  | None => Returned (errToFailure name "response body is nil" failurePolicy)
  | Some readAll =>
  match readAll with
  | inl err => Returned (errToFailure name ("ReadAll failed: " ++ err) failurePolicy)
  | inr data =>
  match json_Unmarshal data with
  | inl err =>
      Returned (errToFailure name ("json unmarshall failed: " ++ err) failurePolicy)
  | inr responseAdmissionReview =>
  match Response responseAdmissionReview with
  | None => Panicked nil_dereference
  | Some response =>
      if negb (Allowed response) then
        match Result response with
        | None => Panicked nil_dereference
        | Some result =>
            Returned (Some ("proxied webhook " ++ name
                            ++ " denied the request: " ++ Message result))
        end
      else Returned None
  end end end end end end.

(** [Header.Add]: the key is canonicalised, the value appended. *)
Definition Header_Add (h : gmap string (list string)) (key value : string)
    : gmap string (list string) :=
  let key := CanonicalMIMEHeaderKey key in
  <[key := (default [] (h !! key) ++ [value])%list]> h.

(** The loop over [r.Header] (Go leaves the order of the keys open; the
    values of one key are added in their order). *)
Definition copyHeaders (src dst : gmap string (list string))
    : gmap string (list string) :=
  map_fold (fun k v h => foldl (fun h s => Header_Add h k s) h v) dst src.

(** [http.NewRequestWithContext] on a [*bytes.Reader]: a URL that does not
    parse gives a nil request; the length is what the reader has left, and
    a reader with nothing left gives [http.NoBody]. *)
Definition NewRequest (method url : string) (b : Reader) : option HttpRequest :=
  if url_ok url then
    Some {| Method := method; URL := url; Header := ∅;
            ContentLength := Reader_Len b;
            Body := if (Reader_Len b =? 0)%nat then NoBody else ReaderBody |}
  else None.

Definition set_Header (req : HttpRequest) (h : gmap string (list string)) :=
  {| Method := Method req; URL := URL req; Header := h;
     ContentLength := ContentLength req; Body := Body req |}.

(** [client.Do]: the transport reads the request's body from the shared
    reader, which moves its index. *)
Definition client_Do (client : Client) (req : HttpRequest) (net : Net)
    : Net * (option HttpResponse * option error) :=
  let avail :=
    match Body req with
    | NoBody => EmptyString
    | ReaderBody => unread (body net)
    end in
  let rt := transport (wire net) client req avail in
  let n := Nat.min (rt_read rt) (String.length avail) in
  ({| body := advance (body net) n;
      wire := (wire net ++ [{| ex_client := client; ex_request := req;
                               ex_sent := substring 0 n avail;
                               ex_response := rt_response rt;
                               ex_error := rt_error rt |}])%list |},
   (rt_response rt, rt_error rt)).

(** [doWebhook], as one step on the shared state: the result is what the
    goroutine sends on [errCh]. The error of [NewRequestWithContext] is
    dropped in the source, so a nil request is used and panics. *)
Definition doWebhook (webhook : Webhook) (r : HttpRequest) (net : Net)
    : Net * exec (option error) :=
  let url := "https://" ++ get webhook serviceName ++ "." ++ get webhook namespace
             ++ ":" ++ get webhook port ++ get webhook path in
  let caCertPool := ([] ++ certsFromPEM (get webhook caBundle))%list in
  let client := {| RootCAs := Some caCertPool |} in
  match NewRequest "POST" url (body net) with
  | None => (net, Panicked nil_dereference)
  | Some req =>
      let req := set_Header req (copyHeaders (Header r) (Header req)) in
      let '(net1, (resp, err)) := client_Do client req net in
      let failurePolicy := Fail in
      (net1, toFailure "webhook" resp err failurePolicy)
  end.

(** The URL [doWebhook] builds for an endpoint. *)
Definition url_of (webhook : Webhook) : string :=
  "https://" ++ get webhook serviceName ++ "." ++ get webhook namespace
  ++ ":" ++ get webhook port ++ get webhook path.

(** The goroutines finish in an order the scheduler picks: at each step
    the head of [sched] (modulo the number still running) names the next
    one to finish. Every [sched] is a schedule, and every order of
    completion is the one of some [sched]. *)
Fixpoint completion {A} (sched : list nat) (pending : list A) (n : nat) : list A :=
  match n with
  | 0 => []
  | S n' =>
      let k := hd 0 sched mod length pending in
      match pending !! k with
      | None => []
      | Some x => x :: completion (tl sched) (delete k pending) n'
      end
  end.

Definition completion_order {A} (sched : list nat) (l : list A) : list A :=
  completion sched l (length l).

(** The goroutines of [checkWebhooks], each taken as one step, in their
    order of completion: the values on [errCh] in the order they were sent.
    A panic in a goroutine ends the process. Runs in which two goroutines
    build their requests before either body is read are not among these:
    the runs here are those where the calls follow one another. *)
Fixpoint collect (order : list Webhook) (r : HttpRequest) (net : Net)
    : Net * exec (list (option error)) :=
  match order with
  | [] => (net, Returned [])
  | webhook :: rest =>
      match doWebhook webhook r net with
      | (net1, Panicked msg) => (net1, Panicked msg)
      | (net1, Returned e) =>
          match collect rest r net1 with
          | (net2, Panicked msg) => (net2, Panicked msg)
          | (net2, Returned es) => (net2, Returned (e :: es))
          end
      end
  end.

(** [checkWebhooks] after [close(errCh)]: the non-nil errors are kept in
    channel order and the first one makes the response. *)
Definition merge (errCh : list (option error)) : AdmissionResponse :=
  let errs := omap id errCh in
  match errs with
  | [] => approved
  | e :: _ => errToAdmissionResponse e
  end.

(** [checkWebhooks]; [body] is the reader of [net]. *)
Definition checkWebhooks (sched : list nat) (webhooks : list Webhook)
    (r : HttpRequest) (net : Net) : Net * exec AdmissionResponse :=
  if (length webhooks =? 0)%nat then (net, Returned approved)
  else
    match collect (completion_order sched webhooks) r net with
    | (net1, Panicked msg) => (net1, Panicked msg)
    | (net1, Returned errCh) => (net1, Returned (merge errCh))
    end.

(** How the Webhook Caller classifies a call, by the branch of [toFailure]
    that handles it; [None] where [toFailure] panics. *)
Inductive CallClass :=
| Success
| TransportError
| ProtocolError
| DenialError (msg : string).

Definition classify (resp : option HttpResponse) (httpErr : option error)
    : option CallClass :=
  match httpErr, resp with
  | Some _, _ => Some TransportError
  | None, None => None
  | None, Some resp =>
      match RespBody resp with
      | None | Some (inl _) => Some ProtocolError
      | Some (inr data) =>
          match json_Unmarshal data with
          | inl _ => Some ProtocolError
          | inr review =>
              match Response review with
              | None => None
              | Some response =>
                  if Allowed response then Some Success
                  else match Result response with
                       | None => None
                       | Some result => Some (DenialError (Message result))
                       end
              end
          end
      end
  end.

Definition classify_exchange (x : Exchange) : option CallClass :=
  classify (ex_response x) (ex_error x).

Definition is_failure (c : option CallClass) : bool :=
  match c with
  | Some TransportError | Some ProtocolError => true
  | _ => false
  end.

End Dispatch.

(** The rule matching of the spec's endpoint resolution, in the spec's
    words: a declared rule is (group, version, resource, operation set); it
    matches a request when the three fields are equal and the operation is
    in the set. No function of the dispatch file does this. *)
Record Rule := {
  rule_group : string;
  rule_version : string;
  rule_resource : string;
  rule_operations : list string
}.

Definition spec_rule_matches (request : AdmissionRequest) (rule : Rule) : bool :=
  String.eqb (rule_group rule) (Group request)
  && String.eqb (rule_version rule) (Version request)
  && String.eqb (rule_resource rule) (Resource request)
  && existsb (String.eqb (Operation request)) (rule_operations rule).

Definition spec_endpoint_matches (declared : Webhook -> list Rule)
    (request : AdmissionRequest) (webhook : Webhook) : bool :=
  existsb (spec_rule_matches request) (declared webhook).

End AdmissionProxy.

(* ===================================================================== *)
(** ** Concrete configurations                                            *)
(* ===================================================================== *)

Module Scenario.

Import Controller.

(** A cluster where creating the webhook object is refused and every other
    write goes through. *)
Definition refusing_create (history : list (@Event string (list string)))
    (v : Verb) (o : @Object string) : option error :=
  match v, o with
  | Create, WebhookObject _ => Some "admission webhook configuration: forbidden"
  | _, _ => None
  end.

Definition accepting (history : list (@Event string (list string)))
    (v : Verb) (o : @Object string) : option error :=
  None.

Definition fresh_resource : ProxyValidatingType :=
  {| Generation := 1; Finalizers := []; ObservedGeneration := 0 |}.

Definition lagging_resource : ProxyValidatingType :=
  {| Generation := 2; Finalizers := [typeFinalizer]; ObservedGeneration := 1 |}.

Definition state_of (cr : ProxyValidatingType) (create update : bool)
    : @analyzedState string (list string) :=
  {| customResource := cr; webhook := "gesher-webhook";
     newProxyTypeData := ["1"];
     create := create; update := update; delete := false |}.

Definition empty_world : @World string (list string) :=
  {| events := []; proxyTypeData := [] |}.

(** An [observe] that finds the fresh resource under every name but
    [gone], and an [analyze] that asks for the webhook to be created. *)
Definition observe (request : Request)
    : @M string (list string) (option ProxyValidatingType * option error) :=
  fun w =>
    ((if String.eqb (Name request) "gone" then None else Some fresh_resource,
      None), w).

Definition analyze (observed : ProxyValidatingType)
    : @M string (list string)
        (option (@analyzedState string (list string)) * option error) :=
  fun w => ((Some (state_of observed true true), None), w).

Definition a_request : Request :=
  {| Namespace := "default"; Name := "rules" |}.

Import AdmissionProxy.

(** A complete environment for the proxy. *)
Definition env : gmap string string :=
  list_to_map [("ADM_SERVICE_NAME", "validator");
               ("ADM_SERVICE_NAMESPACE", "default");
               ("ADM_SERVICE_ENDPOINT", "/validate");
               ("ADM_SERVICE_CABUNDLE", "Q0E=");
               ("ADM_SERVICE_PORT", "443")].

(** The same without the service name. *)
Definition env_without_name : gmap string string :=
  base.delete "ADM_SERVICE_NAME" env.

Definition delete_pod : AdmissionRequest :=
  {| Group := EmptyString; Version := "v1"; Resource := "pods";
     Operation := "DELETE" |}.

Definition create_deployment : AdmissionRequest :=
  {| Group := "apps"; Version := "v1"; Resource := "deployments";
     Operation := "CREATE" |}.

(** Declarations of rules for endpoints: none at all, which is what a
    [Webhook] carries, and deployments on create. *)
Definition no_rules (webhook : Webhook) : list Rule := [].

Definition deployments_only (webhook : Webhook) : list Rule :=
  [{| rule_group := "apps"; rule_version := "v1";
      rule_resource := "deployments"; rule_operations := ["CREATE"] |}].

(** Endpoints by service name. *)
Definition endpoint (name : string) : Webhook :=
  <[serviceName := name]> (<[namespace := "default"]> (<[port := "443"]>
    (<[path := "/validate"]> (<[caBundle := "CA of " ++ name]> ∅)))).

(** The response bodies of the endpoints of this scenario, and the reviews
    [json.Unmarshal] reads from them. *)
Definition quoted (str : string) : string := GoLib.dquote ++ str ++ GoLib.dquote.

Definition json_allowed : string :=
  "{" ++ quoted "response" ++ ":{" ++ quoted "allowed" ++ ":true}}".

Definition json_denied (msg : string) : string :=
  "{" ++ quoted "response" ++ ":{" ++ quoted "allowed" ++ ":false,"
  ++ quoted "status" ++ ":{" ++ quoted "message" ++ ":" ++ quoted msg ++ "}}}".

Definition review_denied (msg : string) : AdmissionReview :=
  {| Response := Some {| Allowed := false; Result := Some {| Message := msg |} |} |}.

Definition review_allowed : AdmissionReview :=
  {| Response := Some {| Allowed := true; Result := None |} |}.

Definition json_Unmarshal (data : string) : error + AdmissionReview :=
  if String.eqb data json_allowed then inr review_allowed
  else if String.eqb data (json_denied "first says no")
       then inr (review_denied "first says no")
  else if String.eqb data (json_denied "second says no")
       then inr (review_denied "second says no")
  else inl "invalid character".

Definition answer (data : string) : HttpResponse :=
  {| RespBody := Some (inr data) |}.

(** The network: the transport sends the whole body; the services [first]
    and [second] deny, [quiet] and [calm] allow, no other host exists. *)
Definition transport (history : list (@Exchange string)) (client : @Client string)
    (req : HttpRequest) (avail : string) : RoundTrip :=
  let reply data :=
    {| rt_read := String.length avail; rt_response := Some (answer data);
       rt_error := None |} in
  if String.eqb (URL req) "https://first.default:443/validate"
  then reply (json_denied "first says no")
  else if String.eqb (URL req) "https://second.default:443/validate"
  then reply (json_denied "second says no")
  else if String.eqb (URL req) "https://quiet.default:443/validate"
  then reply json_allowed
  else if String.eqb (URL req) "https://calm.default:443/validate"
  then reply json_allowed
  else {| rt_read := 0; rt_response := None;
          rt_error := Some "dial tcp: lookup failed: no such host" |}.

(** The same network over a transport that sends the body before it
    finds out whether the host exists. *)
Definition sending_all (history : list (@Exchange string)) (client : @Client string)
    (req : HttpRequest) (avail : string) : RoundTrip :=
  {| rt_read := String.length avail;
     rt_response := rt_response (transport history client req avail);
     rt_error := rt_error (transport history client req avail) |}.

Definition certsFromPEM (pem : string) : list string := [pem].

Definition any_url (url : string) : bool := true.

Definition same_key (key : string) : string := key.

(** A URL check that refuses a space, as the parser does in a host name. *)
Definition no_space (url : string) : bool :=
  negb (existsb (Ascii.eqb " "%char) (list_ascii_of_string url)).

(** The inbound request and the reader over its body. *)
Definition inbound : HttpRequest :=
  {| Method := "POST"; URL := "/proxy";
     Header := {[ "Content-Type" := ["application/json"] ]};
     ContentLength := 7; Body := ReaderBody |}.

Definition fresh_net : @Net string :=
  {| body := {| buf := "payload"; pos := 0 |}; wire := [] |}.

Definition checkWebhooks :=
  AdmissionProxy.checkWebhooks json_Unmarshal same_key any_url certsFromPEM transport.

Definition doWebhook :=
  AdmissionProxy.doWebhook json_Unmarshal same_key any_url certsFromPEM transport.

Definition collect :=
  AdmissionProxy.collect json_Unmarshal same_key any_url certsFromPEM transport.

Definition findWebhooks :=
  AdmissionProxy.findWebhooks GoLib.base64_DecodeString GoLib.strconv_Atoi.

Definition config_ok :=
  AdmissionProxy.config_ok GoLib.base64_DecodeString GoLib.strconv_Atoi.

(** The endpoint of [env]. *)
Definition validator : Webhook :=
  <[port := "443"]> (<[caBundle := "CA"]> (<[path := "/validate"]>
    (<[namespace := "default"]> (<[serviceName := "validator"]> ∅)))).

(** A denying response. *)
Definition denial_of_first : option HttpResponse :=
  Some (answer (json_denied "first says no")).

Definition first_denies : error :=
  "proxied webhook webhook denied the request: first says no".

Definition second_denies : error :=
  "proxied webhook webhook denied the request: second says no".

Definition nobody_fails : error :=
  "proxied webhook webhook failed: http error: dial tcp: lookup failed: no such host".

(** What an exchange shows of the forwarded body. *)
Definition forwarded (x : @Exchange string) : string * nat * string :=
  (URL (ex_request x), ContentLength (ex_request x), ex_sent x).

End Scenario.

(* ===================================================================== *)
(** ** The act stage                                                      *)
(* ===================================================================== *)

Section ControllerFacts.

Import Controller.
Local Open Scope list_scope.

Lemma containsString_In (slice : list string) (s : string) :
  containsString slice s = true <-> In s slice.
Proof.
  induction slice as [|item rest IH]; simpl.
  - split; [discriminate | tauto].
  - destruct (String.eqb_spec item s) as [->|Hne].
    + split; auto.
    + rewrite IH. split; [auto | intros [H|H]; [contradiction | exact H]].
Qed.

Lemma containsString_append (slice : list string) (s : string) :
  containsString (slice ++ [s]) s = true.
Proof. apply containsString_In, in_or_app. right. now left. Qed.

Lemma containsString_removeString (slice : list string) (s : string) :
  containsString (removeString slice s) s = false.
Proof.
  induction slice as [|item rest IH]; simpl; [reflexivity|].
  destruct (String.eqb_spec item s) as [->|Hne]; [exact IH|].
  simpl. destruct (String.eqb_spec item s); [contradiction | exact IH].
Qed.

Lemma removeString_length (slice : list string) (s : string) :
  length (removeString slice s) <= length slice.
Proof.
  induction slice as [|item rest IH]; simpl; [lia|].
  destruct (String.eqb item s); simpl; lia.
Qed.

Lemma removeString_shrinks (slice : list string) (s : string) :
  containsString slice s = true ->
  length (removeString slice s) < length slice.
Proof.
  induction slice as [|item rest IH]; simpl; [discriminate|].
  destruct (String.eqb item s); simpl; intros H.
  - pose proof (removeString_length rest s). lia.
  - specialize (IH H). lia.
Qed.

Lemma append_changes (slice : list string) (s : string) :
  slice ++ [s] <> slice.
Proof.
  intros Heq. apply (f_equal (@length string)) in Heq.
  rewrite length_app in Heq. simpl in Heq. lia.
Qed.

Lemma removeString_changes (slice : list string) (s : string) :
  containsString slice s = true -> removeString slice s <> slice.
Proof.
  intros Hc Heq. pose proof (removeString_shrinks _ _ Hc) as Hlt.
  rewrite Heq in Hlt. lia.
Qed.

Context {ValidatingWebhookConfiguration ProxyTypeData : Type}.
Variable apiserver :
  list (@Event ValidatingWebhookConfiguration ProxyTypeData) -> Verb ->
  @Object ValidatingWebhookConfiguration -> option error.

Abbreviation State := (@analyzedState ValidatingWebhookConfiguration ProxyTypeData).
Abbreviation act := (Controller.act apiserver).

(** C6. After [manageFinalizer] the finalizer is on the resource exactly
    when the state is not marked for deletion; the function returns true
    exactly when the finalizer list is not the one it found, and a false
    return leaves the whole state as it was. A resource that is already
    right, with the finalizer and not marked for deletion or without it and
    marked, gives false and no mutation; any other gives true. *)
Theorem manageFinalizer_lifecycle (state : State) :
  containsString (Finalizers (customResource (snd (manageFinalizer state))))
                 typeFinalizer = negb (delete state)
  /\ (fst (manageFinalizer state) = true <->
      Finalizers (customResource (snd (manageFinalizer state)))
      <> Finalizers (customResource state))
  /\ (fst (manageFinalizer state) = false -> snd (manageFinalizer state) = state)
  /\ (containsString (Finalizers (customResource state)) typeFinalizer
      = negb (delete state) ->
      manageFinalizer state = (false, state))
  /\ (containsString (Finalizers (customResource state)) typeFinalizer
      <> negb (delete state) ->
      fst (manageFinalizer state) = true).
Proof.
  unfold manageFinalizer.
  destruct (delete state) eqn:Hdel;
    destruct (containsString (Finalizers (customResource state)) typeFinalizer) eqn:Hc;
    simpl.
  - split; [apply containsString_removeString|].
    split; [|split; [discriminate | split; [discriminate | reflexivity]]].
    split; [intros _ Heq | reflexivity].
    pose proof (removeString_shrinks _ _ Hc) as Hlt. rewrite Heq in Hlt. lia.
  - split; [exact Hc|].
    split; [|split; [reflexivity | split; [reflexivity|]]].
    + split; [discriminate | intros H; now contradiction H].
    + intros H. now contradiction H.
  - split; [exact Hc|].
    split; [|split; [reflexivity | split; [reflexivity|]]].
    + split; [discriminate | intros H; now contradiction H].
    + intros H. now contradiction H.
  - split; [apply containsString_append|].
    split; [|split; [discriminate | split; [discriminate | reflexivity]]].
    split; [intros _ Heq | reflexivity].
    apply (f_equal (@length string)) in Heq. rewrite length_app in Heq.
    simpl in Heq. lia.
Qed.

(** The events after [events w] in an expression built by appending. *)
Ltac delta_of w ev :=
  lazymatch ev with
  | events w => constr:(@nil (@Event ValidatingWebhookConfiguration ProxyTypeData))
  | ?l ++ [?x] => let t := delta_of w l in constr:(t ++ [x])
  end.

Ltac without_publication d :=
  lazymatch d with
  | ?l ++ [Published _] => l
  | _ => d
  end.

Ltac act_cases state :=
  unfold Controller.act, manageWebhookConfig, manageFinalizer,
    manageGeneration, webhook_verb;
  unfold bind, call, ret, publish;
  destruct (update state) eqn:Hupdate; destruct (create state) eqn:Hcreate;
  destruct (delete state) eqn:Hdelete;
  destruct (containsString (Finalizers (customResource state)) typeFinalizer)
    eqn:Hcontains;
  destruct (ObservedGeneration (customResource state)
            =? Generation (customResource state))%Z eqn:Hgen;
  simpl; rewrite ?Hgen; simpl;
  repeat match goal with
         | |- context [apiserver ?h ?v ?o] =>
             let r := fresh "res" in
             let Hr := fresh "Hres" in
             destruct (apiserver h v o) as [r|] eqn:Hr; simpl
         end.

(** C2. When the create or update of the cluster webhook fails, [act]
    returns that error, leaves the state (finalizers and status) as it was,
    makes no other call and does not assign [proxyTypeData]. In every
    cycle the assignment, when there is one, is the last event, every call
    before it succeeded, and the webhook apply is among them when an update
    was asked for. *)
Theorem act_webhook_apply_first (state : State) (w : World) :
  (forall err,
      update state = true ->
      apiserver (events w) (webhook_verb state) (WebhookObject (webhook state))
        = Some err ->
      act state w
      = (Some err, state,
         {| events := events w ++ [Called (webhook_verb state)
                                      (WebhookObject (webhook state)) (Some err)];
            proxyTypeData := proxyTypeData w |}))
  /\ (exists calls : list Event,
         count is_publication calls = 0
         /\ ((fst (fst (act state w)) <> None
              /\ events (snd (act state w)) = events w ++ calls
              /\ proxyTypeData (snd (act state w)) = proxyTypeData w)
             \/ (fst (fst (act state w)) = None
                 /\ events (snd (act state w))
                    = events w ++ calls ++ [Published (newProxyTypeData state)]
                 /\ proxyTypeData (snd (act state w)) = newProxyTypeData state
                 /\ forallb succeeded calls = true
                 /\ (update state = true -> count is_webhook_apply calls = 1)))).
Proof.
  split.
  - intros err Hupd Hfail.
    unfold Controller.act, manageWebhookConfig; unfold bind, call, ret.
    unfold webhook_verb in *. rewrite Hupd. revert Hfail.
    destruct (create state); simpl; intros ->; reflexivity.
  - act_cases state;
      eexists;
      lazymatch goal with
      | |- count _ ?c = 0 /\ ((_ /\ ?ev = _ /\ _) \/ _) =>
          let d := delta_of w ev in
          let c' := without_publication d in
          unify c c'
      end;
      (split; [reflexivity|]);
      first [ left; split; [discriminate|];
              split; [rewrite <- ?app_assoc; reflexivity | reflexivity]
            | right; split; [reflexivity|];
              split; [rewrite <- ?app_assoc, ?app_nil_r; reflexivity|];
              split; [reflexivity|]; split; [reflexivity|];
              first [reflexivity | discriminate | intros; reflexivity] ].
Qed.

Ltac absurd_change :=
  exfalso;
  repeat match goal with
         | H : _ = customResource _ |- _ =>
             let HF := fresh "HF" in
             let HO := fresh "HO" in
             pose proof (f_equal Finalizers H) as HF;
             pose proof (f_equal ObservedGeneration H) as HO;
             simpl in HF, HO; clear H
         end;
  match goal with
  | H : ?l ++ [_] = ?l |- _ => exact (append_changes _ _ H)
  | H : removeString ?l ?s = ?l, Hc : containsString ?l ?s = true |- _ =>
      exact (removeString_changes _ _ Hc H)
  | H : ?x <> ?x |- _ => exact (H eq_refl)
  | H : Generation ?c <> ObservedGeneration ?c, Hg : (_ =? _)%Z = true |- _ =>
      apply Z.eqb_eq in Hg; exact (H (eq_sym Hg))
  | H : Generation ?c = ObservedGeneration ?c, Hg : (_ =? _)%Z = false |- _ =>
      apply Z.eqb_neq in Hg; exact (Hg (eq_sym H))
  end.

(** C7. In one [act]: when the finalizer list changed there is exactly one
    full-object update of the resource and no status-only update; when the
    finalizer list is the same and the observed generation changed there
    is exactly one status-only update and no full-object update; when the
    resource is as it was, no write of the resource is made. *)
Theorem act_minimal_writes (state : State) (w : World) :
  exists calls : list Event,
    events (snd (act state w)) = events w ++ calls
    /\ (Finalizers (customResource (snd (fst (act state w))))
        <> Finalizers (customResource state) ->
        count is_full_update calls = 1
        /\ count is_status_update calls = 0
        /\ count is_resource_write calls = 1)
    /\ (Finalizers (customResource (snd (fst (act state w))))
        = Finalizers (customResource state) ->
        ObservedGeneration (customResource (snd (fst (act state w))))
        <> ObservedGeneration (customResource state) ->
        count is_status_update calls = 1
        /\ count is_full_update calls = 0
        /\ count is_resource_write calls = 1)
    /\ (customResource (snd (fst (act state w))) = customResource state ->
        count is_resource_write calls = 0).
Proof.
  act_cases state;
    eexists;
    (split;
     [ lazymatch goal with
       | |- ?ev = _ ++ ?c => let d := delta_of w ev in unify c d
       end;
       rewrite <- ?app_assoc; reflexivity
     | ]);
    (split; [|split]); simpl; intros;
    first [ repeat split; reflexivity | absurd_change ].
Qed.

(** *** More on the finalizer list *)

Lemma removeString_is_filter (slice : list string) (s : string) :
  removeString slice s
  = List.filter (fun item => negb (String.eqb item s)) slice.
Proof.
  induction slice as [|item rest IH]; simpl; [reflexivity|].
  destruct (String.eqb item s); simpl; now rewrite IH.
Qed.

(** X1. [removeString] drops every occurrence of [s] and nothing else: the
    other items stay, in their order and as often as they were there. *)
Theorem removeString_keeps_the_others (slice : list string) (s : string) :
  removeString slice s
  = List.filter (fun item => negb (String.eqb item s)) slice
  /\ (forall t, In t (removeString slice s) <-> In t slice /\ t <> s)
  /\ (forall t, t <> s ->
        count_occ string_dec (removeString slice s) t
        = count_occ string_dec slice t).
Proof.
  split; [apply removeString_is_filter|]. split.
  - intros t. rewrite removeString_is_filter, List.filter_In.
    destruct (String.eqb_spec t s) as [->|Hne]; simpl;
      intuition (try discriminate; try congruence).
  - intros t Hne. induction slice as [|item rest IH]; simpl; [reflexivity|].
    destruct (String.eqb_spec item s) as [->|Hs]; simpl.
    + destruct (string_dec s t); [congruence | exact IH].
    + destruct (string_dec item t); now rewrite IH.
Qed.

Lemma others_after_append (slice : list string) (s : string) :
  List.filter (fun item => negb (String.eqb item s)) (slice ++ [s])
  = List.filter (fun item => negb (String.eqb item s)) slice.
Proof.
  rewrite List.filter_app. simpl. rewrite String.eqb_refl. simpl.
  apply app_nil_r.
Qed.

Lemma others_after_remove (slice : list string) (s : string) :
  List.filter (fun item => negb (String.eqb item s)) (removeString slice s)
  = List.filter (fun item => negb (String.eqb item s)) slice.
Proof.
  induction slice as [|item rest IH]; simpl; [reflexivity|].
  destruct (String.eqb item s) eqn:He; simpl; [exact IH|].
  rewrite He. simpl. now rewrite IH.
Qed.

(** X2. [manageFinalizer] only ever touches its own finalizer: the other
    finalizers of the resource stay in their order, and the generations,
    the webhook, the new aggregate and the three flags are as before. *)
Theorem manageFinalizer_frame (state : State) :
  List.filter (fun item => negb (String.eqb item typeFinalizer))
    (Finalizers (customResource (snd (manageFinalizer state))))
  = List.filter (fun item => negb (String.eqb item typeFinalizer))
      (Finalizers (customResource state))
  /\ Generation (customResource (snd (manageFinalizer state)))
     = Generation (customResource state)
  /\ ObservedGeneration (customResource (snd (manageFinalizer state)))
     = ObservedGeneration (customResource state)
  /\ webhook (snd (manageFinalizer state)) = webhook state
  /\ newProxyTypeData (snd (manageFinalizer state)) = newProxyTypeData state
  /\ create (snd (manageFinalizer state)) = create state
  /\ update (snd (manageFinalizer state)) = update state
  /\ delete (snd (manageFinalizer state)) = delete state.
Proof.
  unfold manageFinalizer.
  destruct (delete state) eqn:Hdel;
    destruct (containsString (Finalizers (customResource state)) typeFinalizer);
    simpl; repeat split; auto using others_after_append, others_after_remove.
Qed.

Lemma manageFinalizer_settled (state : State) :
  containsString (Finalizers (customResource state)) typeFinalizer
  = negb (delete state) ->
  manageFinalizer state = (false, state).
Proof.
  unfold manageFinalizer. intros ->. now destruct (delete state).
Qed.

Lemma manageFinalizer_settles (state : State) :
  containsString (Finalizers (customResource (snd (manageFinalizer state))))
                 typeFinalizer
  = negb (delete (snd (manageFinalizer state))).
Proof.
  unfold manageFinalizer.
  destruct (delete state) eqn:Hdel;
    destruct (containsString (Finalizers (customResource state)) typeFinalizer)
      eqn:Hc; simpl; rewrite ?Hdel; simpl;
    auto using containsString_removeString, containsString_append.
Qed.

(** X3. [manageFinalizer] is idempotent: run on the state it left, it
    returns false and changes nothing. *)
Theorem manageFinalizer_idempotent (state : State) :
  manageFinalizer (snd (manageFinalizer state))
  = (false, snd (manageFinalizer state)).
Proof. apply manageFinalizer_settled, manageFinalizer_settles. Qed.

Lemma removeString_subset (slice : list string) (s t : string) :
  t ∈ removeString slice s -> t ∈ slice.
Proof.
  induction slice as [|item rest IH]; simpl; [auto|].
  destruct (String.eqb item s).
  - intros H. right. auto.
  - intros H. apply elem_of_cons in H as [->|H]; [left | right; auto].
Qed.

Lemma removeString_NoDup (slice : list string) (s : string) :
  NoDup slice -> NoDup (removeString slice s).
Proof.
  induction slice as [|item rest IH]; simpl; [auto|].
  intros [Hnotin Hnd]%NoDup_cons.
  destruct (String.eqb item s); [auto|].
  apply NoDup_cons. split; [|auto].
  intros Hin. apply Hnotin. eapply removeString_subset; eauto.
Qed.

(** X4. [manageFinalizer] never makes a duplicate: a finalizer list
    without repetition stays without repetition. *)
Theorem manageFinalizer_NoDup (state : State) :
  NoDup (Finalizers (customResource state)) ->
  NoDup (Finalizers (customResource (snd (manageFinalizer state)))).
Proof.
  intros Hnd. unfold manageFinalizer.
  destruct (delete state);
    destruct (containsString (Finalizers (customResource state)) typeFinalizer)
      eqn:Hc; simpl; try exact Hnd.
  - now apply removeString_NoDup.
  - apply (proj2 (NoDup_app _ _)). split; [exact Hnd|].
    split; [|apply NoDup_singleton].
    intros x Hx Hin. apply list_elem_of_singleton in Hin as ->.
    apply list_elem_of_In, containsString_In in Hx. congruence.
Qed.

(** X5. After [manageGeneration] the observed generation is the
    generation; it returns true exactly when the two differed; it leaves
    the finalizers and the generation alone, and run again it returns
    false and changes nothing. *)
Theorem manageGeneration_refreshes (state : State) :
  ObservedGeneration (customResource (snd (manageGeneration state)))
  = Generation (customResource (snd (manageGeneration state)))
  /\ (fst (manageGeneration state) = true <->
      ObservedGeneration (customResource state)
      <> Generation (customResource state))
  /\ Finalizers (customResource (snd (manageGeneration state)))
     = Finalizers (customResource state)
  /\ Generation (customResource (snd (manageGeneration state)))
     = Generation (customResource state)
  /\ manageGeneration (snd (manageGeneration state))
     = (false, snd (manageGeneration state)).
Proof.
  unfold manageGeneration.
  destruct (ObservedGeneration (customResource state)
            =? Generation (customResource state))%Z eqn:Hgen; simpl.
  - rewrite Hgen. simpl. apply Z.eqb_eq in Hgen.
    repeat split; auto; try discriminate; try (intros H; now contradiction H).
  - rewrite Z.eqb_refl. simpl. apply Z.eqb_neq in Hgen.
    repeat split; auto.
Qed.

(** *** More on [act] *)

(** The events [act] appends, named through an existential variable. *)
Ltac name_calls w :=
  eexists;
  split;
  [ lazymatch goal with
    | |- ?ev = _ ++ ?c => let d := delta_of w ev in unify c d
    end;
    rewrite <- ?app_assoc; reflexivity
  | ].

(** X6. [act] touches the cluster webhook only when [update] is set,
    whatever [create] says: then it makes exactly one call on it, first of
    all, a create when [create] is set and an update otherwise. *)
Theorem act_webhook_calls (state : State) (w : World) :
  exists calls : list Event,
    events (snd (act state w)) = events w ++ calls
    /\ count is_webhook_apply calls = (if update state then 1 else 0)
    /\ (update state = true ->
        exists res rest,
          calls = Called (webhook_verb state) (WebhookObject (webhook state)) res
                  :: rest).
Proof.
  act_cases state; name_calls w;
    (split; [reflexivity|]); intros Hu; try discriminate;
    eexists; eexists; reflexivity.
Qed.

(** X7. [act] stops at the first call that fails and returns its error:
    an error comes back exactly when the last event is a failed call, with
    that error, after calls that all succeeded; and nil comes back only
    when no call failed. *)
Theorem act_returns_the_failure (state : State) (w : World) :
  exists calls : list Event,
    events (snd (act state w)) = events w ++ calls
    /\ (forall e, fst (fst (act state w)) = Some e ->
          exists pre v o,
            calls = pre ++ [Called v o (Some e)]
            /\ forallb succeeded pre = true)
    /\ (fst (fst (act state w)) = None ->
        forallb (fun ev => succeeded ev || is_publication ev) calls = true).
Proof.
  act_cases state; name_calls w;
    (split; [intros e He | intros He]); try discriminate; try reflexivity;
    injection He as <-;
    first [ exists []; eexists; eexists; split; reflexivity
          | eexists [_]; eexists; eexists; split; reflexivity ].
Qed.

(** X8. One [act] makes at most two client calls, at most one on the
    webhook and at most one on the resource, and assigns [proxyTypeData]
    at most once. *)
Theorem act_at_most_two_calls (state : State) (w : World) :
  exists calls : list Event,
    events (snd (act state w)) = events w ++ calls
    /\ count is_call calls <= 2
    /\ count is_webhook_apply calls <= 1
    /\ count is_resource_write calls <= 1
    /\ count is_publication calls <= 1.
Proof.
  act_cases state; name_calls w; unfold count; simpl; lia.
Qed.

(** X9. Whatever [act] writes of the resource is the resource it leaves in
    the state, with the finalizer on it exactly when the state is not
    marked for deletion and with the observed generation brought up to the
    generation: a full update carries the status change too. *)
Theorem act_writes_the_settled_resource (state : State) (w : World) :
  exists calls : list Event,
    events (snd (act state w)) = events w ++ calls
    /\ forall v cr result,
         In (Called v (ResourceObject cr) result) calls ->
         cr = customResource (snd (fst (act state w)))
         /\ containsString (Finalizers cr) typeFinalizer = negb (delete state)
         /\ ObservedGeneration cr = Generation cr.
Proof.
  act_cases state; name_calls w; intros v cr result Hin; simpl in Hin;
    repeat match goal with
           | H : _ \/ _ |- _ => destruct H as [H|H]
           | H : False |- _ => destruct H
           | H : Called _ _ _ = Called _ _ _ |- _ => injection H as <- <- <-
           | H : Published _ = Called _ _ _ |- _ => discriminate H
           | H : Called _ (WebhookObject _) _ = Called _ (ResourceObject _) _ |- _ =>
               discriminate H
           end;
    simpl; rewrite ?Hdelete; simpl;
    (split; [reflexivity|]);
    (split; [auto using containsString_removeString, containsString_append
            | first [reflexivity | now apply Z.eqb_eq ] ]).
Qed.

Lemma manageGeneration_settled (state : State) :
  ObservedGeneration (customResource state) = Generation (customResource state) ->
  manageGeneration state = (false, state).
Proof.
  unfold manageGeneration. intros ->. now rewrite Z.eqb_refl.
Qed.

Lemma act_success_state (state : State) (w : World) :
  fst (fst (act state w)) = None ->
  snd (fst (act state w)) = snd (manageGeneration (snd (manageFinalizer state))).
Proof. act_cases state; intros He; try discriminate; reflexivity. Qed.

Lemma managed_is_settled (state : State) :
  let state' := snd (manageGeneration (snd (manageFinalizer state))) in
  manageFinalizer state' = (false, state')
  /\ manageGeneration state' = (false, state').
Proof.
  simpl. split.
  - apply manageFinalizer_settled.
    pose proof (manageFinalizer_settles state) as Hs.
    unfold manageGeneration.
    destruct (ObservedGeneration (customResource (snd (manageFinalizer state)))
              =? Generation (customResource (snd (manageFinalizer state))))%Z;
      simpl; exact Hs.
  - apply manageGeneration_settled. unfold manageGeneration.
    destruct (ObservedGeneration (customResource (snd (manageFinalizer state)))
              =? Generation (customResource (snd (manageFinalizer state))))%Z
      eqn:Hgen; simpl; [now apply Z.eqb_eq | reflexivity].
Qed.

Lemma act_on_settled (state : State) (w : World) :
  manageFinalizer state = (false, state) ->
  manageGeneration state = (false, state) ->
  snd (fst (act state w)) = state
  /\ exists calls : list Event,
       events (snd (act state w)) = events w ++ calls
       /\ count is_resource_write calls = 0.
Proof.
  intros Hf Hg.
  unfold Controller.act, manageWebhookConfig; unfold bind, call, ret, publish.
  destruct (update state); destruct (create state); simpl;
    repeat match goal with
           | |- context [apiserver ?h ?v ?o] =>
               let r := fresh "res" in
               destruct (apiserver h v o) as [r|]; simpl
           end;
    rewrite ?Hf; simpl; rewrite ?Hg; simpl;
    (split; [reflexivity|]); name_calls w; reflexivity.
Qed.

(** X10. A cycle that succeeded leaves nothing to do on the resource: a
    next [act] on the state it left writes no resource, neither in full
    nor its status, and leaves that state as it is. *)
Theorem act_converges (state : State) (w : World) :
  fst (fst (act state w)) = None ->
  forall w',
    snd (fst (act (snd (fst (act state w))) w')) = snd (fst (act state w))
    /\ exists calls : list Event,
         events (snd (act (snd (fst (act state w))) w')) = events w' ++ calls
         /\ count is_resource_write calls = 0.
Proof.
  intros Hok w'. rewrite (act_success_state state w Hok).
  destruct (managed_is_settled state) as [Hf Hg].
  now apply act_on_settled.
Qed.

(** The shape of what one [act] appends. *)
Lemma act_outcome (state : State) (w : World) :
  exists calls : list Event,
    count is_publication calls = 0
    /\ (((exists e, fst (fst (act state w)) = Some e)
         /\ events (snd (act state w)) = events w ++ calls
         /\ proxyTypeData (snd (act state w)) = proxyTypeData w)
        \/ (fst (fst (act state w)) = None
            /\ events (snd (act state w))
               = events w ++ calls ++ [Published (newProxyTypeData state)]
            /\ proxyTypeData (snd (act state w)) = newProxyTypeData state
            /\ forallb succeeded calls = true)).
Proof.
  act_cases state;
    eexists;
    lazymatch goal with
    | |- count _ ?c = 0 /\ ((_ /\ ?ev = _ /\ _) \/ _) =>
        let d := delta_of w ev in
        let c' := without_publication d in
        unify c c'
    end;
    (split; [reflexivity|]);
    first [ left; split; [eexists; reflexivity|];
            split; [rewrite <- ?app_assoc; reflexivity | reflexivity]
          | right; split; [reflexivity|];
            split; [rewrite <- ?app_assoc, ?app_nil_r; reflexivity|];
            split; reflexivity ].
Qed.

End ControllerFacts.

(* ===================================================================== *)
(** ** The reconcile cycle                                                *)
(* ===================================================================== *)

Section ReconcileFacts.

Import Controller.
Local Open Scope list_scope.

Context {ValidatingWebhookConfiguration ProxyTypeData observedState : Type}.
Variable apiserver :
  list (@Event ValidatingWebhookConfiguration ProxyTypeData) -> Verb ->
  @Object ValidatingWebhookConfiguration -> option error.
Variable observe :
  Request -> @M ValidatingWebhookConfiguration ProxyTypeData
               (option observedState * option error).
Variable analyze :
  observedState -> @M ValidatingWebhookConfiguration ProxyTypeData
                     (option (@analyzedState ValidatingWebhookConfiguration
                                ProxyTypeData) * option error).

Abbreviation Reconcile := (Controller.Reconcile apiserver observe analyze).

(** X11. With an [observe] and an [analyze] that leave the world as they
    find it, one [Reconcile] never asks for a requeue in its result; when
    it returns an error, or crashes on a nil state, nothing was published
    and [proxyTypeData] is as before; when it returns nil, either the
    resource was not found and nothing at all was done, or the last event
    is the publication of the analyzed aggregate, after client calls that
    all succeeded. *)
Theorem Reconcile_outcome (request : Request) (w : World) :
  (forall request0 w0, snd (observe request0 w0) = w0) ->
  (forall observed w0, snd (analyze observed w0) = w0) ->
  exists calls : list Event,
    events (snd (Reconcile request w)) = events w ++ calls
    /\ (forall msg, fst (Reconcile request w) = Crashed msg ->
          calls = [] /\ proxyTypeData (snd (Reconcile request w)) = proxyTypeData w)
    /\ (forall res e,
          fst (Reconcile request w) = Finished (res, Some e) ->
          res = no_requeue
          /\ count is_publication calls = 0
          /\ proxyTypeData (snd (Reconcile request w)) = proxyTypeData w)
    /\ (forall res,
          fst (Reconcile request w) = Finished (res, None) ->
          res = no_requeue
          /\ ((fst (fst (observe request w)) = None /\ calls = [])
              \/ (exists observed state pre,
                    fst (fst (observe request w)) = Some observed
                    /\ fst (fst (analyze observed w)) = Some state
                    /\ calls = pre ++ [Published (newProxyTypeData state)]
                    /\ forallb succeeded pre = true
                    /\ proxyTypeData (snd (Reconcile request w))
                       = newProxyTypeData state))).
Proof.
  intros Hobserve Hanalyze. unfold Controller.Reconcile.
  pose proof (Hobserve request w) as Hw1.
  destruct (observe request w) as [[observed err] w1]. simpl in Hw1. subst w1.
  simpl.
  destruct err as [e|].
  { exists []. rewrite app_nil_r. simpl. split; [reflexivity|].
    split; [discriminate|]. split; [|discriminate].
    intros res e' [= <- <-]. auto. }
  destruct observed as [observed|].
  2:{ exists []. rewrite app_nil_r. simpl. split; [reflexivity|].
      split; [discriminate|]. split; [discriminate|].
      intros res [= <-]. auto. }
  pose proof (Hanalyze observed w) as Hw2.
  destruct (analyze observed w) as [[state err] w2] eqn:Ha. simpl in Hw2. subst w2.
  simpl.
  destruct err as [e|].
  { exists []. rewrite app_nil_r. simpl. split; [reflexivity|].
    split; [discriminate|]. split; [|discriminate].
    intros res e' [= <- <-]. auto. }
  destruct state as [state|].
  2:{ exists []. rewrite app_nil_r. simpl. split; [reflexivity|].
      split; [auto|]. split; discriminate. }
  destruct (act_outcome apiserver state w)
    as (calls & Hnone & [([e He] & Hev & Hp)|(He & Hev & Hp & Hok)]).
  - destruct (Controller.act apiserver state w) as [[err st'] w3].
    simpl in *. subst err. exists calls. split; [exact Hev|].
    split; [discriminate|]. split; [|discriminate].
    intros res e' [= <- <-]. auto.
  - destruct (Controller.act apiserver state w) as [[err st'] w3].
    simpl in *. subst err.
    exists (calls ++ [Published (newProxyTypeData state)]).
    split; [exact Hev|]. split; [discriminate|]. split; [discriminate|].
    intros res [= <-]. split; [reflexivity|]. right.
    exists observed, state, calls. rewrite Ha. auto.
Qed.

End ReconcileFacts.

(* ===================================================================== *)
(** ** The admission proxy                                                *)
(* ===================================================================== *)

Section DispatchFacts.

Import AdmissionProxy.
Local Open Scope list_scope.

(** *** The order of completion *)

Lemma completion_Permutation {A} (n : nat) : forall (sched : list nat) (pending : list A),
  length pending = n -> completion sched pending n ≡ₚ pending.
Proof.
  induction n as [|n IH]; intros sched pending Hlen; simpl.
  - destruct pending; [reflexivity | discriminate].
  - assert (Hk : hd 0 sched mod length pending < length pending)
      by (apply Nat.mod_upper_bound; lia).
    destruct (lookup_lt_is_Some_2 pending _ Hk) as [x Hx]. rewrite Hx.
    etransitivity; [|symmetry; exact (delete_Permutation pending _ x Hx)].
    constructor. apply IH.
    pose proof (length_delete pending _ (ex_intro _ x Hx)). lia.
Qed.

Lemma completion_order_Permutation {A} (sched : list nat) (l : list A) :
  completion_order sched l ≡ₚ l.
Proof. now apply completion_Permutation. Qed.

(** Every order of completion is the one of some schedule. *)
Lemma completion_order_complete {A} (l' : list A) : forall l : list A,
  l ≡ₚ l' -> exists sched, completion_order sched l = l'.
Proof.
  unfold completion_order.
  induction l' as [|x l' IH]; intros l Hperm.
  - apply Permutation_nil_r in Hperm as ->. now exists [].
  - assert (Hin : x ∈ l) by (rewrite Hperm; left).
    apply list_elem_of_lookup in Hin as [k Hk].
    pose proof (lookup_lt_Some _ _ _ Hk) as Hlt.
    assert (Hrest : base.delete k l ≡ₚ l').
    { apply (Permutation_cons_inv (a := x)).
      now rewrite <- (delete_Permutation l k x Hk). }
    destruct (IH _ Hrest) as [sched Hsched].
    exists (k :: sched).
    destruct l as [|y l0]; [simpl in Hlt; lia|].
    cbn [length completion hd tl].
    rewrite Nat.mod_small by exact Hlt. rewrite Hk. f_equal.
    pose proof (length_delete (y :: l0) k (ex_intro _ x Hk)) as Hd.
    cbn [length] in Hd.
    replace (length l0) with (length (base.delete k (y :: l0))) by lia.
    exact Hsched.
Qed.

(** *** The Webhook Caller *)

Variable base64_DecodeString : string -> option string.
Variable strconv_Atoi : string -> error + Z.
Variable json_Unmarshal : string -> error + AdmissionReview.
Variable CanonicalMIMEHeaderKey : string -> string.
Variable url_ok : string -> bool.
Context {Certificate : Type}.
Variable certsFromPEM : string -> list Certificate.
Variable transport :
  list (@Exchange Certificate) -> @Client Certificate -> HttpRequest -> string ->
  RoundTrip.

Abbreviation findWebhooks :=
  (AdmissionProxy.findWebhooks base64_DecodeString strconv_Atoi).
Abbreviation toFailure := (AdmissionProxy.toFailure json_Unmarshal).
Abbreviation classify := (AdmissionProxy.classify json_Unmarshal).
Abbreviation classify_exchange := (AdmissionProxy.classify_exchange json_Unmarshal).
Abbreviation copyHeaders := (AdmissionProxy.copyHeaders CanonicalMIMEHeaderKey).
Abbreviation Header_Add := (AdmissionProxy.Header_Add CanonicalMIMEHeaderKey).
Abbreviation doWebhook :=
  (AdmissionProxy.doWebhook json_Unmarshal CanonicalMIMEHeaderKey url_ok
     certsFromPEM transport).
Abbreviation collect :=
  (AdmissionProxy.collect json_Unmarshal CanonicalMIMEHeaderKey url_ok
     certsFromPEM transport).
Abbreviation checkWebhooks :=
  (AdmissionProxy.checkWebhooks json_Unmarshal CanonicalMIMEHeaderKey url_ok
     certsFromPEM transport).

Lemma errToFailure_Fail (name : string) (err : error) :
  errToFailure name err Fail
  = Some ("proxied webhook " +:+ name +:+ " failed: " +:+ err).
Proof. reflexivity. Qed.

Lemma errToFailure_Ignore (name : string) (err : error) :
  errToFailure name err Ignore = None.
Proof. reflexivity. Qed.

(** A transport or protocol error goes through [errToFailure]. *)
Lemma toFailure_failure (name : string) (resp : option HttpResponse)
    (httpErr : option error) (failurePolicy : FailurePolicyType) :
  is_failure (classify resp httpErr) = true ->
  exists err,
    toFailure name resp httpErr failurePolicy
    = Returned (errToFailure name err failurePolicy).
Proof.
  unfold AdmissionProxy.classify, AdmissionProxy.toFailure.
  destruct httpErr as [e|]; [eauto|].
  destruct resp as [[rb]|]; [|discriminate]. simpl.
  destruct rb as [[err|data]|]; [eauto| |eauto].
  destruct (json_Unmarshal data) as [err|[[[allowed result]|]]]; [eauto| |discriminate].
  simpl. destruct allowed; [discriminate|].
  destruct result; discriminate.
Qed.

(** A denial does not. *)
Lemma toFailure_denial (name : string) (resp : option HttpResponse)
    (httpErr : option error) (failurePolicy : FailurePolicyType) (msg : string) :
  classify resp httpErr = Some (DenialError msg) ->
  toFailure name resp httpErr failurePolicy
  = Returned (Some ("proxied webhook " +:+ name
                    +:+ " denied the request: " +:+ msg)).
Proof.
  unfold AdmissionProxy.classify, AdmissionProxy.toFailure.
  destruct httpErr as [e|]; [discriminate|].
  destruct resp as [[rb]|]; [|discriminate]. simpl.
  destruct rb as [[err|data]|]; [discriminate| |discriminate].
  destruct (json_Unmarshal data) as [err|[[[allowed result]|]]];
    [discriminate| |discriminate].
  simpl. destruct allowed; [discriminate|].
  destruct result as [[m]|]; [|discriminate].
  simpl. now intros [= ->].
Qed.

(** The value sent for a call, read off its class. *)
Lemma toFailure_nil_is_success (name : string) (resp : option HttpResponse)
    (httpErr : option error) :
  toFailure name resp httpErr Fail = Returned None ->
  classify resp httpErr = Some Success.
Proof.
  unfold AdmissionProxy.classify, AdmissionProxy.toFailure.
  destruct httpErr as [e|]; [discriminate|].
  destruct resp as [[rb]|]; [|discriminate]. simpl.
  destruct rb as [[err|data]|]; [discriminate| |discriminate].
  destruct (json_Unmarshal data) as [err|[[[allowed result]|]]];
    [discriminate| |discriminate].
  simpl. destruct allowed; [reflexivity|].
  destruct result; discriminate.
Qed.

(** C1, as the code has it. For a call classified TransportError or
    ProtocolError the failure policy decides: under Fail the call gives an
    error (Deny), under Ignore it gives nil (Allow). For a call classified
    DenialError, a parsed response with allowed=false and a status, the
    policy is not consulted: the call gives the denial error under every
    policy, Ignore included. *)
Theorem toFailure_policy (name : string) (resp : option HttpResponse)
    (httpErr : option error) :
  (is_failure (classify resp httpErr) = true ->
     (exists e, toFailure name resp httpErr Fail = Returned (Some e))
     /\ toFailure name resp httpErr Ignore = Returned None)
  /\ (forall msg failurePolicy,
        classify resp httpErr = Some (DenialError msg) ->
        toFailure name resp httpErr failurePolicy
        = Returned (Some ("proxied webhook " +:+ name
                          +:+ " denied the request: " +:+ msg))).
Proof.
  split.
  - intros Hf. split.
    + destruct (toFailure_failure name resp httpErr Fail Hf) as [err ->].
      rewrite errToFailure_Fail. eauto.
    + destruct (toFailure_failure name resp httpErr Ignore Hf) as [err ->].
      now rewrite errToFailure_Ignore.
  - intros msg failurePolicy. apply toFailure_denial.
Qed.

(** *** Endpoint resolution *)

Lemma get_insert (m : gmap string string) (k v : string) :
  get (<[k := v]> m) k = v.
Proof. unfold get. now rewrite lookup_insert_eq. Qed.

(** What [findWebhooks] does on an environment, whatever the request. *)
Lemma findWebhooks_cases (env : gmap string string) (request : AdmissionRequest) :
  (config_ok base64_DecodeString strconv_Atoi env = false
   /\ exists msg, findWebhooks env request = Panicked msg)
  \/ (config_ok base64_DecodeString strconv_Atoi env = true
      /\ exists data,
           base64_DecodeString (Getenv env "ADM_SERVICE_CABUNDLE") = Some data
           /\ findWebhooks env request
              = Returned
                  [<[port := Getenv env "ADM_SERVICE_PORT"]>
                     (<[caBundle := data]>
                        (<[path := Getenv env "ADM_SERVICE_ENDPOINT"]>
                           (<[namespace := Getenv env "ADM_SERVICE_NAMESPACE"]>
                              (<[serviceName := Getenv env "ADM_SERVICE_NAME"]> ∅))))]).
Proof.
  unfold AdmissionProxy.findWebhooks, config_ok.
  rewrite !get_insert.
  destruct (is_empty (Getenv env "ADM_SERVICE_NAME")); [left; eauto|].
  destruct (is_empty (Getenv env "ADM_SERVICE_NAMESPACE")); [left; eauto|].
  destruct (is_empty (Getenv env "ADM_SERVICE_ENDPOINT")); [left; eauto|].
  destruct (is_empty (Getenv env "ADM_SERVICE_CABUNDLE")); [left; eauto|].
  destruct (base64_DecodeString (Getenv env "ADM_SERVICE_CABUNDLE")) as [data|];
    [|left; eauto].
  rewrite !get_insert.
  destruct (is_empty (Getenv env "ADM_SERVICE_PORT")); [left; simpl; eauto|].
  destruct (strconv_Atoi (Getenv env "ADM_SERVICE_PORT")) as [err|n];
    [left; simpl; eauto|].
  right. split; [reflexivity|]. exists data. split; reflexivity.
Qed.

(** C5, as the code has it. The configuration is checked by
    [findWebhooks] itself, each time it is called for an admission request:
    with a variable unset or empty, a CA bundle that does not decode or a
    port that does not convert, the call panics; otherwise it returns the
    one endpoint built from the five values. *)
Theorem findWebhooks_checks_on_call (env : gmap string string)
    (request : AdmissionRequest) :
  (config_ok base64_DecodeString strconv_Atoi env = false ->
     exists msg, findWebhooks env request = Panicked msg)
  /\ (config_ok base64_DecodeString strconv_Atoi env = true ->
      exists webhook,
        findWebhooks env request = Returned [webhook]
        /\ get webhook serviceName = Getenv env "ADM_SERVICE_NAME"
        /\ get webhook namespace = Getenv env "ADM_SERVICE_NAMESPACE"
        /\ get webhook path = Getenv env "ADM_SERVICE_ENDPOINT"
        /\ get webhook port = Getenv env "ADM_SERVICE_PORT"
        /\ base64_DecodeString (Getenv env "ADM_SERVICE_CABUNDLE")
           = Some (get webhook caBundle)).
Proof.
  destruct (findWebhooks_cases env request) as [[Hbad Hp]|[Hok (data & Hd & Hr)]].
  - split; [intros _; exact Hp | congruence].
  - split; [congruence|]. intros _. eexists. split; [exact Hr|].
    rewrite Hd. repeat split.
Qed.

(** C4, as the code has it. Endpoint resolution does not read the request:
    two requests get the same result from the same environment, and a
    result is never the empty list: it is the one endpoint of the
    environment, for every (group, version, resource, operation). *)
Theorem findWebhooks_ignores_request (env : gmap string string)
    (request request' : AdmissionRequest) :
  findWebhooks env request = findWebhooks env request'
  /\ (forall webhooks, findWebhooks env request = Returned webhooks ->
                       exists webhook, webhooks = [webhook]).
Proof.
  split; [reflexivity|].
  intros webhooks Hr.
  destruct (findWebhooks_cases env request) as [[_ [msg Hp]]|[_ (data & _ & Hr')]].
  - congruence.
  - rewrite Hr' in Hr. injection Hr as <-. eauto.
Qed.

(** *** The forwarded request *)

Lemma Header_Add_keeps (h : gmap string (list string)) (key value k s : string) :
  s ∈ default [] (h !! k) -> s ∈ default [] (Header_Add h key value !! k).
Proof.
  unfold AdmissionProxy.Header_Add. intros Hin.
  destruct (decide (CanonicalMIMEHeaderKey key = k)) as [<-|Hne].
  - rewrite lookup_insert_eq. simpl. apply elem_of_app. now left.
  - now rewrite lookup_insert_ne.
Qed.

Lemma Header_Add_adds (h : gmap string (list string)) (key value : string) :
  value ∈ default [] (Header_Add h key value !! CanonicalMIMEHeaderKey key).
Proof.
  unfold AdmissionProxy.Header_Add. rewrite lookup_insert_eq. simpl.
  apply elem_of_app. right. now left.
Qed.

Lemma add_values_keeps (key : string) (values : list string) :
  forall (h : gmap string (list string)) (k s : string),
    s ∈ default [] (h !! k) ->
    s ∈ default [] (foldl (fun h s => Header_Add h key s) h values !! k).
Proof.
  induction values as [|v rest IH]; intros h k s Hin; [exact Hin|].
  simpl. apply IH. now apply Header_Add_keeps.
Qed.

Lemma add_values_adds (key : string) (values : list string) :
  forall (h : gmap string (list string)) (s : string),
    s ∈ values ->
    s ∈ default [] (foldl (fun h s => Header_Add h key s) h values
                    !! CanonicalMIMEHeaderKey key).
Proof.
  induction values as [|v rest IH]; intros h s Hin; [inversion Hin|].
  simpl. apply elem_of_cons in Hin as [->|Hin].
  - apply add_values_keeps, Header_Add_adds.
  - now apply IH.
Qed.

(** Every inbound header value is on the forwarded request, under the
    canonical form of its key. *)
Lemma copyHeaders_carries (src dst : gmap string (list string))
    (k : string) (values : list string) (s : string) :
  src !! k = Some values -> s ∈ values ->
  s ∈ default [] (copyHeaders src dst !! CanonicalMIMEHeaderKey k).
Proof.
  unfold AdmissionProxy.copyHeaders. revert k values s.
  apply (map_fold_weak_ind
           (fun (res : gmap string (list string)) (m : gmap string (list string)) =>
              forall k values s, m !! k = Some values -> s ∈ values ->
                s ∈ default [] (res !! CanonicalMIMEHeaderKey k))).
  - intros k values s Hk. now rewrite lookup_empty in Hk.
  - intros i x m res Hi IH k values s Hk Hin.
    destruct (decide (i = k)) as [->|Hne].
    + rewrite lookup_insert_eq in Hk. injection Hk as ->.
      now apply add_values_adds.
    + rewrite lookup_insert_ne in Hk by exact Hne.
      apply add_values_keeps. eapply IH; eauto.
Qed.

(** *** The dispatcher *)

(** One call: a nil request panics before anything is sent; otherwise one
    exchange is added, made with a client whose roots are the certificates
    of this endpoint's bundle and with the inbound headers copied, and the
    value for the channel is [toFailure] of what came back, under Fail. *)
Lemma doWebhook_exchange (webhook : Webhook) (r : HttpRequest) (net : Net) :
  (url_ok (url_of webhook) = false
   /\ doWebhook webhook r net = (net, Panicked nil_dereference))
  \/ (url_ok (url_of webhook) = true
      /\ exists x,
           wire (fst (doWebhook webhook r net)) = wire net ++ [x]
           /\ snd (doWebhook webhook r net)
              = toFailure "webhook" (ex_response x) (ex_error x) Fail
           /\ RootCAs (ex_client x) = Some (certsFromPEM (get webhook caBundle))
           /\ URL (ex_request x) = url_of webhook
           /\ Header (ex_request x) = copyHeaders (Header r) ∅).
Proof.
  unfold AdmissionProxy.doWebhook, AdmissionProxy.NewRequest. fold (url_of webhook).
  destruct (url_ok (url_of webhook)); [right|left; auto].
  split; [reflexivity|]. simpl. eexists. repeat split.
Qed.

(** The body of one call is read from the shared reader: what goes out is
    a prefix of what the reader has left, and the reader moves on by it. *)
Lemma doWebhook_body (webhook : Webhook) (r : HttpRequest) (net : Net) :
  url_ok (url_of webhook) = true ->
  exists x n,
    wire (fst (doWebhook webhook r net)) = wire net ++ [x]
    /\ ContentLength (ex_request x) = Reader_Len (body net)
    /\ n <= Reader_Len (body net)
    /\ ex_sent x = substring 0 n (unread (body net))
    /\ body (fst (doWebhook webhook r net)) = advance (body net) n.
Proof.
  intros Hurl.
  unfold AdmissionProxy.doWebhook, AdmissionProxy.NewRequest. fold (url_of webhook).
  rewrite Hurl. simpl.
  assert (Hlen : String.length (unread (body net)) = Reader_Len (body net)).
  { unfold unread, Reader_Len.
    generalize (pos (body net)) as p. generalize (buf (body net)) as b.
    induction b as [|c b IH]; intros [|p]; simpl; try reflexivity.
    - f_equal. specialize (IH 0). simpl in IH. rewrite Nat.sub_0_r in IH.
      exact IH.
    - apply IH. }
  destruct (Nat.eqb (Reader_Len (body net)) 0) eqn:Hz; simpl.
  - apply Nat.eqb_eq in Hz. rewrite Nat.min_0_r. eexists. exists 0.
    split; [reflexivity|]. split; [reflexivity|]. split; [lia|].
    split; [|reflexivity].
    destruct (unread (body net)); reflexivity.
  - eexists. eexists. split; [reflexivity|]. split; [reflexivity|].
    split; [|split; reflexivity]. rewrite Hlen. lia.
Qed.

Lemma collect_exchanges (order : list Webhook) (r : HttpRequest) :
  forall (net net' : Net) (errCh : list (option error)),
    collect order r net = (net', Returned errCh) ->
    exists xs,
      wire net' = wire net ++ xs
      /\ Forall2 (fun x o => toFailure "webhook" (ex_response x) (ex_error x) Fail
                             = Returned o) xs errCh.
Proof.
  induction order as [|webhook rest IH]; intros net net' errCh; simpl.
  - intros [= <- <-]. exists []. rewrite app_nil_r. split; constructor.
  - destruct (doWebhook_exchange webhook r net) as [[_ Hp]|[_ (x & Hw & Ho & _)]].
    + rewrite Hp. discriminate.
    + destruct (doWebhook webhook r net) as [net1 [e|msg]] eqn:Hdo; [|discriminate].
      simpl in Hw, Ho.
      destruct (collect rest r net1) as [net2 [es|msg]] eqn:Hrest; [|discriminate].
      intros [= <- <-].
      destruct (IH _ _ _ Hrest) as (xs & Hxs & Hall).
      exists (x :: xs). split.
      * rewrite Hxs, Hw, <- app_assoc. reflexivity.
      * constructor; [now symmetry | exact Hall].
Qed.

Lemma merge_all_nil (errCh : list (option error)) :
  (forall o, In o errCh -> o = None) -> merge errCh = approved.
Proof.
  intros Hall. unfold merge.
  replace (omap id errCh) with (@nil error); [reflexivity|].
  induction errCh as [|o rest IH]; [reflexivity|].
  rewrite (Hall o) by now left. simpl. apply IH.
  intros o' Hin. apply Hall. now right.
Qed.

Lemma merge_first_denial (front back : list (option error)) (e : error) :
  Forall (eq None) front ->
  merge (front ++ Some e :: back) = errToAdmissionResponse e.
Proof.
  intros Hfront. unfold merge. rewrite omap_app.
  replace (omap id front) with (@nil error); [reflexivity|].
  induction Hfront as [|o rest <- _ IH]; [reflexivity | exact IH].
Qed.

Lemma first_denial (errCh : list (option error)) :
  (exists e, In (Some e) errCh) ->
  exists front e back,
    errCh = front ++ Some e :: back /\ Forall (eq None) front.
Proof.
  induction errCh as [|o rest IH]; intros [e Hin]; [destruct Hin|].
  destruct o as [e'|].
  - exists [], e', rest. split; [reflexivity | constructor].
  - destruct Hin as [Hin|Hin]; [discriminate|].
    destruct (IH (ex_intro _ e Hin)) as (front & e1 & back & -> & Hfront).
    exists (None :: front), e1, back. split; [reflexivity | now constructor].
Qed.

Lemma errCh_nil_or_denial (errCh : list (option error)) :
  (forall o, In o errCh -> o = None) \/ (exists e, In (Some e) errCh).
Proof.
  induction errCh as [|o rest [IH|[e IH]]].
  - left. intros o [].
  - destruct o as [e|].
    + right. exists e. now left.
    + left. intros o [<-|Hin]; [reflexivity | now apply IH].
  - right. exists e. now right.
Qed.

Lemma merge_denied_inv (errCh : list (option error)) :
  Allowed (merge errCh) = false -> exists e, In (Some e) errCh.
Proof.
  intros Hd.
  destruct (errCh_nil_or_denial errCh) as [Hall|Hex]; [|exact Hex].
  rewrite (merge_all_nil errCh Hall) in Hd. discriminate.
Qed.

Lemma checkWebhooks_collect (sched : list nat) (webhooks : list Webhook)
    (r : HttpRequest) (net net' : Net) (errCh : list (option error)) :
  collect (completion_order sched webhooks) r net = (net', Returned errCh) ->
  checkWebhooks sched webhooks r net = (net', Returned (merge errCh)).
Proof.
  intros Hc. unfold AdmissionProxy.checkWebhooks.
  destruct webhooks as [|webhook rest]; [|simpl Nat.eqb; cbv iota; now rewrite Hc].
  simpl in *. now injection Hc as <- <-.
Qed.

Lemma checkWebhooks_returned_inv (sched : list nat) (webhooks : list Webhook)
    (r : HttpRequest) (net net' : Net) (resp : AdmissionResponse) :
  checkWebhooks sched webhooks r net = (net', Returned resp) ->
  exists errCh,
    collect (completion_order sched webhooks) r net = (net', Returned errCh)
    /\ resp = merge errCh.
Proof.
  unfold AdmissionProxy.checkWebhooks.
  destruct webhooks as [|webhook rest].
  - simpl. intros [= <- <-]. exists []. split; reflexivity.
  - simpl Nat.eqb. cbv iota.
    destruct (collect (completion_order sched (webhook :: rest)) r net)
      as [net1 [errCh|msg]]; [|discriminate].
    intros [= <- <-]. exists errCh. split; reflexivity.
Qed.

(** C3. [checkWebhooks] allows when no endpoint matched; it allows when
    every value collected from the calls is nil; and a verdict that is not
    allowed comes with at least one collected value that is an error. *)
Theorem checkWebhooks_allows (sched : list nat) (r : HttpRequest) (net : Net) :
  (checkWebhooks sched [] r net = (net, Returned approved)
   /\ Allowed approved = true)
  /\ (forall webhooks net' errCh,
        collect (completion_order sched webhooks) r net = (net', Returned errCh) ->
        (forall o, In o errCh -> o = None) ->
        checkWebhooks sched webhooks r net = (net', Returned approved))
  /\ (forall webhooks net' resp,
        checkWebhooks sched webhooks r net = (net', Returned resp) ->
        Allowed resp = false ->
        exists errCh e,
          collect (completion_order sched webhooks) r net = (net', Returned errCh)
          /\ In (Some e) errCh).
Proof.
  split; [split; reflexivity|]. split.
  - intros webhooks net' errCh Hc Hall.
    rewrite (checkWebhooks_collect _ _ _ _ _ _ Hc). now rewrite merge_all_nil.
  - intros webhooks net' resp Hr Hd.
    destruct (checkWebhooks_returned_inv _ _ _ _ _ _ Hr) as (errCh & Hc & ->).
    destruct (merge_denied_inv errCh Hd) as [e He]. eauto.
Qed.

(** C9, as the code has it. When at least one collected value is an error
    the verdict is Deny, and its message is the first error in the order
    the calls completed and sent their values, which the scheduler
    decides; the calls before it in that order gave nil. *)
Theorem checkWebhooks_first_completed_denial (sched : list nat)
    (webhooks : list Webhook) (r : HttpRequest) (net net' : Net)
    (errCh : list (option error)) :
  collect (completion_order sched webhooks) r net = (net', Returned errCh) ->
  (exists e, In (Some e) errCh) ->
  exists front e back,
    errCh = front ++ Some e :: back
    /\ Forall (eq None) front
    /\ checkWebhooks sched webhooks r net
       = (net', Returned {| Allowed := false;
                            Result := Some {| Message := e |} |}).
Proof.
  intros Hc Hex.
  destruct (first_denial errCh Hex) as (front & e & back & -> & Hfront).
  exists front, e, back. split; [reflexivity|]. split; [exact Hfront|].
  rewrite (checkWebhooks_collect _ _ _ _ _ _ Hc).
  now rewrite merge_first_denial.
Qed.

(** C10. Every call is judged under the constant Fail, whatever the
    endpoint: the value a call sends is [toFailure] of its exchange under
    Fail. So when [checkWebhooks] returns, any call classified
    TransportError or ProtocolError makes the verdict Deny, and a nil on
    the channel only comes from a call classified as success: no error is
    mapped to nil. *)
Theorem dispatch_applies_Fail (sched : list nat) (webhooks : list Webhook)
    (r : HttpRequest) (net : Net) :
  (forall webhook net0,
      (url_ok (url_of webhook) = false
       /\ doWebhook webhook r net0 = (net0, Panicked nil_dereference))
      \/ (exists x,
            wire (fst (doWebhook webhook r net0)) = wire net0 ++ [x]
            /\ snd (doWebhook webhook r net0)
               = toFailure "webhook" (ex_response x) (ex_error x) Fail))
  /\ (forall net' resp,
        checkWebhooks sched webhooks r net = (net', Returned resp) ->
        exists xs errCh,
          wire net' = wire net ++ xs
          /\ collect (completion_order sched webhooks) r net = (net', Returned errCh)
          /\ Forall2 (fun x o => o = None -> classify_exchange x = Some Success)
                     xs errCh
          /\ (Exists (fun x => is_failure (classify_exchange x) = true) xs ->
              Allowed resp = false)).
Proof.
  split.
  - intros webhook net0.
    destruct (doWebhook_exchange webhook r net0) as [H|[_ (x & Hw & Ho & _)]];
      [left; exact H | right; eauto].
  - intros net' resp Hr.
    destruct (checkWebhooks_returned_inv _ _ _ _ _ _ Hr) as (errCh & Hc & ->).
    destruct (collect_exchanges _ _ _ _ _ Hc) as (xs & Hw & Hall).
    exists xs, errCh. split; [exact Hw|]. split; [exact Hc|]. split.
    + eapply Forall2_impl; [exact Hall|].
      intros x o Ho ->. now apply (toFailure_nil_is_success "webhook").
    + intros Hex.
      destruct (errCh_nil_or_denial errCh) as [Hnil|[e He]].
      * exfalso. clear Hc Hr Hw.
        induction Hall as [|x o xs' errCh' Ho Hrest IH];
          [inversion Hex|].
        inversion Hex as [? ? Hx|? ? Hx]; subst.
        -- destruct (toFailure_failure "webhook" _ _ Fail Hx) as [err Herr].
           unfold AdmissionProxy.classify_exchange in Hx.
           rewrite Herr in Ho. injection Ho as <-.
           specialize (Hnil _ (or_introl eq_refl)). discriminate.
        -- apply IH; [exact Hx|]. intros o' Hin. apply Hnil. now right.
      * destruct (first_denial errCh (ex_intro _ e He))
          as (front & e1 & back & -> & Hfront).
        now rewrite merge_first_denial.
Qed.

(** *** More on the Webhook Caller *)

(** X12. [toFailure] panics in exactly three situations, under every
    policy: no error and no response; a body that unmarshals into a review
    without a response; a response that denies without a status. *)
Theorem toFailure_panics_exactly (name : string) (resp : option HttpResponse)
    (httpErr : option error) (failurePolicy : FailurePolicyType) :
  (exists msg, toFailure name resp httpErr failurePolicy = Panicked msg)
  <-> httpErr = None
      /\ (resp = None
          \/ exists data review,
               resp = Some {| RespBody := Some (inr data) |}
               /\ json_Unmarshal data = inr review
               /\ (Response review = None
                   \/ exists response,
                        Response review = Some response
                        /\ Allowed response = false
                        /\ Result response = None)).
Proof.
  unfold AdmissionProxy.toFailure. split.
  - intros [msg Hp]. destruct httpErr as [e|]; [discriminate|].
    split; [reflexivity|].
    destruct resp as [[rb]|]; [right|now left]. simpl in Hp.
    destruct rb as [[err|data]|]; try discriminate.
    exists data. destruct (json_Unmarshal data) as [err|review]; [discriminate|].
    exists review. split; [reflexivity|]. split; [reflexivity|].
    destruct (Response review) as [response|]; [right|now left].
    exists response. split; [reflexivity|].
    destruct (Allowed response); [discriminate|]. split; [reflexivity|].
    simpl in Hp. destruct (Result response); [discriminate | reflexivity].
  - intros [-> [->|(data & review & -> & Hu & Hr)]]; [eauto|].
    simpl. rewrite Hu.
    destruct Hr as [->|(response & -> & Ha & Hres)]; [eauto|].
    rewrite Ha, Hres. simpl. eauto.
Qed.

(** X13. A response that unmarshals into a review whose response has
    allowed=true gives nil under every policy, with or without a status;
    and under Fail nothing else gives nil. *)
Theorem toFailure_nil_means_allowed (name : string) (resp : option HttpResponse)
    (httpErr : option error) :
  ((exists data review response,
       httpErr = None
       /\ resp = Some {| RespBody := Some (inr data) |}
       /\ json_Unmarshal data = inr review
       /\ Response review = Some response
       /\ Allowed response = true) ->
   forall failurePolicy,
     toFailure name resp httpErr failurePolicy = Returned None)
  /\ (toFailure name resp httpErr Fail = Returned None ->
      exists data review response,
        httpErr = None
        /\ resp = Some {| RespBody := Some (inr data) |}
        /\ json_Unmarshal data = inr review
        /\ Response review = Some response
        /\ Allowed response = true).
Proof.
  unfold AdmissionProxy.toFailure. split.
  - intros (data & review & response & -> & -> & Hu & Hr & Ha) failurePolicy.
    simpl. now rewrite Hu, Hr, Ha.
  - destruct httpErr as [e|]; [discriminate|].
    destruct resp as [[rb]|]; [|discriminate]. simpl.
    destruct rb as [[err|data]|]; try discriminate.
    destruct (json_Unmarshal data) as [err|review] eqn:Hu; [discriminate|].
    destruct (Response review) as [response|] eqn:Hr; [|discriminate].
    destruct (Allowed response) eqn:Ha; simpl.
    + intros _. exists data, review, response. auto.
    + destruct (Result response); discriminate.
Qed.

(** X14. For a call classified TransportError or ProtocolError, only the
    exact policy value Fail makes an error: every other value, the empty
    one and a misspelt one included, gives nil as Ignore does. *)
Theorem toFailure_only_Fail_fails (name : string) (resp : option HttpResponse)
    (httpErr : option error) (failurePolicy : FailurePolicyType) :
  is_failure (classify resp httpErr) = true ->
  (toFailure name resp httpErr failurePolicy = Returned None
   <-> failurePolicy <> Fail).
Proof.
  intros Hf.
  destruct (toFailure_failure name resp httpErr failurePolicy Hf) as [err ->].
  unfold errToFailure.
  destruct (String.eqb_spec failurePolicy Fail) as [->|Hne].
  - split; [discriminate | intros H; now contradiction H].
  - split; [now intros _ | reflexivity].
Qed.

(** *** More on endpoint resolution *)

(** X15. An endpoint that [findWebhooks] returns is validated and
    complete: it is the only one, it has the five keys and no other, its
    service name, namespace, path and port are not empty, its port
    converts, and the URL [doWebhook] builds from it is made of the four
    environment values. *)
Theorem findWebhooks_endpoint_shape (env : gmap string string)
    (request : AdmissionRequest) (webhooks : list Webhook) :
  findWebhooks env request = Returned webhooks ->
  exists webhook,
    webhooks = [webhook]
    /\ dom webhook = ({[serviceName; namespace; path; caBundle; port]} : gset string)
    /\ get webhook serviceName <> EmptyString
    /\ get webhook namespace <> EmptyString
    /\ get webhook path <> EmptyString
    /\ get webhook port <> EmptyString
    /\ (exists n, strconv_Atoi (get webhook port) = inr n)
    /\ url_of webhook
       = "https://" +:+ Getenv env "ADM_SERVICE_NAME" +:+ "."
         +:+ Getenv env "ADM_SERVICE_NAMESPACE" +:+ ":"
         +:+ Getenv env "ADM_SERVICE_PORT" +:+ Getenv env "ADM_SERVICE_ENDPOINT".
Proof.
  intros Hr.
  destruct (findWebhooks_cases env request)
    as [[_ [msg Hp]]|[Hok (data & _ & Hr')]]; [congruence|].
  rewrite Hr' in Hr. injection Hr as <-. eexists. split; [reflexivity|].
  unfold config_ok in Hok.
  repeat match goal with
         | H : _ && _ = true |- _ => apply andb_prop in H as [H ?]
         end.
  repeat match goal with
         | H : negb (is_empty _) = true |- _ =>
             apply negb_true_iff in H; unfold is_empty in H;
             apply String.eqb_neq in H
         end.
  split; [rewrite !dom_insert_L, dom_empty_L; set_solver|].
  repeat split; try assumption.
  destruct (strconv_Atoi (Getenv env "ADM_SERVICE_PORT")) as [err|n] eqn:Hn;
    [discriminate|].
  exists n. exact Hn.
Qed.

(** *** More on the forwarded request *)

Lemma add_values_lookup (key : string) (values : list string) :
  forall (h : gmap string (list string)) (k : string),
    default [] (foldl (fun h s => Header_Add h key s) h values !! k)
    = if decide (CanonicalMIMEHeaderKey key = k)
      then default [] (h !! k) ++ values
      else default [] (h !! k).
Proof.
  induction values as [|v rest IH]; intros h k; simpl.
  - case_decide; [now rewrite app_nil_r | reflexivity].
  - rewrite IH. unfold AdmissionProxy.Header_Add.
    case_decide as Hk.
    + subst k. rewrite lookup_insert_eq. simpl. now rewrite <- app_assoc.
    + now rewrite lookup_insert_ne.
Qed.

Lemma copyHeaders_only (src dst : gmap string (list string)) (k' s : string) :
  s ∈ default [] (copyHeaders src dst !! k') ->
  s ∈ default [] (dst !! k')
  \/ exists k values,
       src !! k = Some values /\ s ∈ values /\ CanonicalMIMEHeaderKey k = k'.
Proof.
  unfold AdmissionProxy.copyHeaders. revert k' s.
  apply (map_fold_weak_ind
           (fun (res : gmap string (list string)) (m : gmap string (list string)) =>
              forall k' s, s ∈ default [] (res !! k') ->
                s ∈ default [] (dst !! k')
                \/ exists k values,
                     m !! k = Some values /\ s ∈ values
                     /\ CanonicalMIMEHeaderKey k = k')).
  - intros k' s Hin. now left.
  - intros i x m res Hi IH k' s Hin.
    rewrite add_values_lookup in Hin.
    assert (Hold : s ∈ default [] (res !! k') ->
                   s ∈ default [] (dst !! k')
                   \/ exists k values,
                        <[i:=x]> m !! k = Some values /\ s ∈ values
                        /\ CanonicalMIMEHeaderKey k = k').
    { intros Hres. destruct (IH _ _ Hres) as [Hd|(k & values & Hk & Hs & Hc)];
        [now left|]. right. exists k, values. split; [|auto].
      rewrite lookup_insert_ne; [exact Hk|]. intros ->. congruence. }
    case_decide as Hk; [|auto].
    apply elem_of_app in Hin as [Hres|Hx]; [auto|].
    right. exists i, x. rewrite lookup_insert_eq. auto.
Qed.

Lemma copyHeaders_verbatim (src : gmap string (list string)) :
  (forall k, is_Some (src !! k) -> CanonicalMIMEHeaderKey k = k) ->
  forall k, default [] (copyHeaders src ∅ !! k) = default [] (src !! k).
Proof.
  unfold AdmissionProxy.copyHeaders.
  apply (map_fold_weak_ind
           (fun (res : gmap string (list string)) (m : gmap string (list string)) =>
              (forall k, is_Some (m !! k) -> CanonicalMIMEHeaderKey k = k) ->
              forall k, default [] (res !! k) = default [] (m !! k))).
  - intros _ k. reflexivity.
  - intros i x m res Hi IH Hcanon k.
    assert (Hm : forall k0, is_Some (m !! k0) -> CanonicalMIMEHeaderKey k0 = k0).
    { intros k0 Hk0. apply Hcanon. rewrite lookup_insert_ne; [exact Hk0|].
      intros ->. rewrite Hi in Hk0. now destruct Hk0. }
    rewrite add_values_lookup, (IH Hm).
    rewrite (Hcanon i) by (rewrite lookup_insert_eq; eauto).
    case_decide as Hk.
    + subst k. rewrite Hi, lookup_insert_eq. reflexivity.
    + now rewrite lookup_insert_ne.
Qed.

(** X16. The headers of the forwarded request are the inbound ones and
    no other: a value is under a key of the forwarded request exactly when
    it is an inbound value of a key with that canonical form. *)
Theorem doWebhook_forwards_headers (webhook : Webhook) (r : HttpRequest)
    (net : Net) :
  url_ok (url_of webhook) = true ->
  exists x,
    wire (fst (doWebhook webhook r net)) = wire net ++ [x]
    /\ forall k' s,
         s ∈ default [] (Header (ex_request x) !! k')
         <-> exists k values,
               Header r !! k = Some values /\ s ∈ values
               /\ CanonicalMIMEHeaderKey k = k'.
Proof.
  intros Hurl.
  destruct (doWebhook_exchange webhook r net)
    as [[Hbad _]|[_ (x & Hw & _ & _ & _ & Hh)]]; [congruence|].
  exists x. split; [exact Hw|]. intros k' s. rewrite Hh. split.
  - intros Hin. destruct (copyHeaders_only _ _ _ _ Hin) as [He|He]; [|exact He].
    rewrite lookup_empty in He. inversion He.
  - intros (k & values & Hk & Hs & <-). eapply copyHeaders_carries; eauto.
Qed.

(** X17. When the inbound keys are in canonical form, as the keys of a
    parsed request are, every key of the forwarded request has the
    inbound list of values, in the inbound order. *)
Theorem doWebhook_forwards_headers_verbatim (webhook : Webhook)
    (r : HttpRequest) (net : Net) :
  url_ok (url_of webhook) = true ->
  (forall k, is_Some (Header r !! k) -> CanonicalMIMEHeaderKey k = k) ->
  exists x,
    wire (fst (doWebhook webhook r net)) = wire net ++ [x]
    /\ forall k, default [] (Header (ex_request x) !! k)
                 = default [] (Header r !! k).
Proof.
  intros Hurl Hcanon.
  destruct (doWebhook_exchange webhook r net)
    as [[Hbad _]|[_ (x & Hw & _ & _ & _ & Hh)]]; [congruence|].
  exists x. split; [exact Hw|]. intros k. rewrite Hh.
  now apply copyHeaders_verbatim.
Qed.

Lemma substring_whole (str : string) :
  substring 0 (String.length str) str = str.
Proof. induction str as [|c str IH]; simpl; [reflexivity | now rewrite IH]. Qed.

(** X18. One call on a reader that has not been read, over a transport
    that sends all it is given, forwards the inbound body whole, with its
    length as the content length. *)
Theorem doWebhook_forwards_fresh_body (webhook : Webhook) (r : HttpRequest)
    (net : Net) :
  url_ok (url_of webhook) = true ->
  pos (body net) = 0 ->
  (forall history client req avail,
      String.length avail <= rt_read (transport history client req avail)) ->
  exists x,
    wire (fst (doWebhook webhook r net)) = wire net ++ [x]
    /\ ex_sent x = buf (body net)
    /\ ContentLength (ex_request x) = String.length (buf (body net))
    /\ unread (body (fst (doWebhook webhook r net))) = EmptyString.
Proof.
  intros Hurl Hpos Hall.
  unfold AdmissionProxy.doWebhook, AdmissionProxy.NewRequest. fold (url_of webhook).
  rewrite Hurl. simpl.
  assert (Hlen : Reader_Len (body net) = String.length (buf (body net)))
    by (unfold Reader_Len; rewrite Hpos; lia).
  assert (Hun : unread (body net) = buf (body net))
    by (unfold unread; rewrite Hlen, Hpos; apply substring_whole).
  assert (Hend : forall n, String.length (buf (body net)) <= n ->
                           unread (advance (body net) n) = EmptyString).
  { intros n Hn. unfold unread, advance, Reader_Len. simpl.
    replace (String.length (buf (body net)) - (pos (body net) + n)) with 0 by lia.
    generalize (pos (body net) + n) as m. generalize (buf (body net)) as b.
    induction b as [|c b IH]; intros [|m]; simpl; auto. }
  rewrite Hlen.
  destruct (Nat.eqb (String.length (buf (body net))) 0) eqn:Hz; simpl.
  - apply Nat.eqb_eq in Hz. eexists. split; [reflexivity|]. simpl.
    rewrite Nat.min_0_r.
    destruct (buf (body net)) eqn:Hb; [|discriminate]. simpl.
    split; [reflexivity|]. split; [reflexivity|].
    apply Hend. simpl. lia.
  - eexists. split; [reflexivity|]. simpl. rewrite Hun.
    rewrite Nat.min_r by apply Hall.
    split; [apply substring_whole|]. split; [reflexivity|].
    now apply Hend.
Qed.

(** *** More on the dispatcher *)

Lemma collect_calls (order : list Webhook) (r : HttpRequest) :
  forall (net net' : Net) (errCh : list (option error)),
    collect order r net = (net', Returned errCh) ->
    exists xs,
      wire net' = wire net ++ xs
      /\ Forall2 (fun x webhook => URL (ex_request x) = url_of webhook) xs order.
Proof.
  induction order as [|webhook rest IH]; intros net net' errCh; simpl.
  - intros [= <- <-]. exists []. rewrite app_nil_r. split; constructor.
  - destruct (doWebhook_exchange webhook r net)
      as [[_ Hp]|[_ (x & Hw & _ & _ & Hurl & _)]].
    + rewrite Hp. discriminate.
    + destruct (doWebhook webhook r net) as [net1 [e|msg]] eqn:Hdo; [|discriminate].
      simpl in Hw.
      destruct (collect rest r net1) as [net2 [es|msg]] eqn:Hrest; [|discriminate].
      intros [= <- <-].
      destruct (IH _ _ _ Hrest) as (xs & Hxs & Hall).
      exists (x :: xs). split.
      * rewrite Hxs, Hw, <- app_assoc. reflexivity.
      * now constructor.
Qed.

Lemma collect_trust (order : list Webhook) (r : HttpRequest) :
  forall net : Net,
    exists xs,
      wire (fst (collect order r net)) = wire net ++ xs
      /\ Forall (fun x =>
                   exists webhook,
                     In webhook order
                     /\ URL (ex_request x) = url_of webhook
                     /\ RootCAs (ex_client x)
                        = Some (certsFromPEM (get webhook caBundle))) xs.
Proof.
  induction order as [|webhook rest IH]; intros net; simpl.
  - exists []. rewrite app_nil_r. split; constructor.
  - destruct (doWebhook_exchange webhook r net)
      as [[_ Hp]|[_ (x & Hw & _ & Hroots & Hurl & _)]].
    + rewrite Hp. simpl. exists []. rewrite app_nil_r. split; constructor.
    + assert (Hx : exists webhook0,
                 In webhook0 (webhook :: rest)
                 /\ URL (ex_request x) = url_of webhook0
                 /\ RootCAs (ex_client x)
                    = Some (certsFromPEM (get webhook0 caBundle)))
        by (exists webhook; split; [now left | auto]).
      destruct (doWebhook webhook r net) as [net1 [e|msg]] eqn:Hdo; simpl in Hw.
      * destruct (IH net1) as (xs & Hxs & Hall).
        exists (x :: xs). split.
        -- destruct (collect rest r net1) as [net2 [es|msg]]; simpl in *;
             rewrite Hxs, Hw, <- app_assoc; reflexivity.
        -- constructor; [exact Hx|].
           eapply Forall_impl; [exact Hall|].
           intros x0 (webhook0 & Hin & H0). exists webhook0.
           split; [now right | exact H0].
      * simpl. exists [x]. split; [exact Hw|]. constructor; [exact Hx | constructor].
Qed.

(** X19. A [checkWebhooks] that returns has called every endpoint exactly
    once, whatever each of them answered: the URLs of the requests it sent
    are those of the endpoints, up to order. No call is skipped after a
    denial. *)
Theorem checkWebhooks_calls_every_endpoint (sched : list nat)
    (webhooks : list Webhook) (r : HttpRequest) (net net' : Net)
    (resp : AdmissionResponse) :
  checkWebhooks sched webhooks r net = (net', Returned resp) ->
  exists xs,
    wire net' = wire net ++ xs
    /\ length xs = length webhooks
    /\ map (fun x => URL (ex_request x)) xs ≡ₚ map url_of webhooks.
Proof.
  intros Hr.
  destruct (checkWebhooks_returned_inv _ _ _ _ _ _ Hr) as (errCh & Hc & _).
  destruct (collect_calls _ _ _ _ _ Hc) as (xs & Hw & Hall).
  exists xs. split; [exact Hw|].
  assert (Hmap : map (fun x => URL (ex_request x)) xs
                 = map url_of (completion_order sched webhooks)).
  { clear Hw Hc. induction Hall as [|x webhook xs' order' Hx _ IH];
      [reflexivity|]. simpl. now rewrite Hx, IH. }
  split.
  - apply (f_equal (@length string)) in Hmap. rewrite !length_map in Hmap.
    rewrite Hmap. apply Permutation_length, completion_order_Permutation.
  - rewrite Hmap. apply Permutation_map, completion_order_Permutation.
Qed.

(** X20. Every request [checkWebhooks] sends, also in a run that ends in
    a panic, goes to the URL of one of the endpoints through a client
    whose root pool is never nil and holds the certificates of that
    endpoint's own bundle, be they none. *)
Theorem checkWebhooks_trusts_own_bundle (sched : list nat)
    (webhooks : list Webhook) (r : HttpRequest) (net : Net) :
  exists xs,
    wire (fst (checkWebhooks sched webhooks r net)) = wire net ++ xs
    /\ Forall (fun x =>
                 exists webhook,
                   In webhook webhooks
                   /\ URL (ex_request x) = url_of webhook
                   /\ RootCAs (ex_client x)
                      = Some (certsFromPEM (get webhook caBundle))) xs.
Proof.
  unfold AdmissionProxy.checkWebhooks.
  destruct webhooks as [|webhook rest].
  - simpl. exists []. rewrite app_nil_r. split; constructor.
  - simpl Nat.eqb. cbv iota.
    destruct (collect_trust (completion_order sched (webhook :: rest)) r net)
      as (xs & Hw & Hall).
    exists xs. split.
    + destruct (collect (completion_order sched (webhook :: rest)) r net)
        as [net1 [errCh|msg]]; exact Hw.
    + eapply Forall_impl; [exact Hall|].
      intros x (webhook0 & Hin & H0). exists webhook0. split; [|exact H0].
      apply list_elem_of_In. apply list_elem_of_In in Hin.
      now rewrite <- (completion_order_Permutation sched (webhook :: rest)).
Qed.

Lemma Allowed_merge (errCh : list (option error)) :
  Allowed (merge errCh)
  = forallb (fun o => match o with None => true | Some _ => false end) errCh.
Proof.
  unfold merge. induction errCh as [|[e|] rest IH]; simpl; auto.
Qed.

(** X21. Whether the merged verdict allows does not depend on the order
    in which the values arrived on the channel: only the message does. *)
Theorem merge_allows_in_any_order (errCh errCh' : list (option error)) :
  errCh ≡ₚ errCh' ->
  Allowed (merge errCh) = Allowed (merge errCh').
Proof.
  intros Hperm. rewrite !Allowed_merge.
  induction Hperm as [|o l l' _ IH|o o' l|l l' l'' _ IH1 _ IH2]; simpl.
  - reflexivity.
  - now rewrite IH.
  - destruct o, o'; reflexivity.
  - now rewrite IH1.
Qed.

Lemma collect_bad_url (order : list Webhook) (r : HttpRequest) (webhook : Webhook) :
  In webhook order -> url_ok (url_of webhook) = false ->
  forall net, exists msg, snd (collect order r net) = Panicked msg.
Proof.
  intros Hin Hbad.
  induction order as [|webhook0 rest IH]; intros net; [destruct Hin|]. simpl.
  destruct (doWebhook webhook0 r net) as [net1 [e|msg]] eqn:Hdo; [|simpl; eauto].
  destruct Hin as [->|Hin].
  - destruct (doWebhook_exchange webhook r net) as [[_ Hp]|[Hok _]]; congruence.
  - destruct (IH Hin net1) as [msg Hmsg].
    destruct (collect rest r net1) as [net2 [es|msg']]; simpl in *; eauto.
    discriminate.
Qed.

Lemma toFailure_success (name : string) (resp : option HttpResponse)
    (httpErr : option error) (failurePolicy : FailurePolicyType) :
  classify resp httpErr = Some Success ->
  toFailure name resp httpErr failurePolicy = Returned None.
Proof.
  unfold AdmissionProxy.classify, AdmissionProxy.toFailure.
  destruct httpErr as [e|]; [discriminate|].
  destruct resp as [[rb]|]; [|discriminate]. simpl.
  destruct rb as [[err|data]|]; try discriminate.
  destruct (json_Unmarshal data) as [err|[[[allowed result]|]]]; try discriminate.
  simpl. destruct allowed; [reflexivity|]. destruct result; discriminate.
Qed.

Lemma completion_order_single {A} (sched : list nat) (x : A) :
  completion_order sched [x] = [x].
Proof.
  unfold completion_order. cbn [completion length].
  now rewrite Nat.mod_1_r.
Qed.

(** X23. Resolution and dispatch together: for the endpoints
    [findWebhooks] returns, a [checkWebhooks] that returns has made one
    call, under every schedule: to the URL made of the environment's name,
    namespace, port and path, trusting the certificates of the decoded
    bundle; and the verdict allows exactly when that call was answered by
    a review with allowed=true. *)
Theorem dispatch_on_resolved_endpoint (env : gmap string string)
    (request : AdmissionRequest) (webhooks : list Webhook) (sched : list nat)
    (r : HttpRequest) (net net' : Net) (resp : AdmissionResponse) :
  findWebhooks env request = Returned webhooks ->
  checkWebhooks sched webhooks r net = (net', Returned resp) ->
  exists x data,
    wire net' = wire net ++ [x]
    /\ URL (ex_request x)
       = "https://" +:+ Getenv env "ADM_SERVICE_NAME" +:+ "."
         +:+ Getenv env "ADM_SERVICE_NAMESPACE" +:+ ":"
         +:+ Getenv env "ADM_SERVICE_PORT" +:+ Getenv env "ADM_SERVICE_ENDPOINT"
    /\ base64_DecodeString (Getenv env "ADM_SERVICE_CABUNDLE") = Some data
    /\ RootCAs (ex_client x) = Some (certsFromPEM data)
    /\ (Allowed resp = true <-> classify_exchange x = Some Success).
Proof.
  intros Hfind Hcheck.
  destruct (findWebhooks_cases env request)
    as [[_ [msg Hp]]|[_ (data & Hd & Hr)]]; [congruence|].
  rewrite Hr in Hfind. injection Hfind as <-.
  destruct (checkWebhooks_returned_inv _ _ _ _ _ _ Hcheck) as (errCh & Hc & ->).
  rewrite completion_order_single in Hc. simpl in Hc.
  match type of Hc with
  | context [doWebhook ?w r net] =>
      destruct (doWebhook_exchange w r net)
        as [[_ Hp]|[_ (x & Hw & Ho & Hroots & Hurl & _)]];
      [rewrite Hp in Hc; discriminate|];
      destruct (doWebhook w r net) as [net1 [o|msg]] eqn:Hdo; [|discriminate]
  end.
  injection Hc as <- <-. simpl in Hw, Ho.
  exists x, data. split; [exact Hw|]. split; [exact Hurl|].
  split; [exact Hd|]. split; [exact Hroots|].
  unfold AdmissionProxy.classify_exchange. split.
  - intros Ha. destruct o as [e|]; [discriminate Ha|].
    now apply (toFailure_nil_is_success "webhook").
  - intros Hs. rewrite (toFailure_success _ _ _ Fail Hs) in Ho.
    injection Ho as ->. reflexivity.
Qed.

(** X22. One endpoint whose URL does not parse is enough for
    [checkWebhooks] to panic, under every schedule and whatever the other
    endpoints answer: the error of the request constructor is dropped. *)
Theorem checkWebhooks_panics_on_bad_url (sched : list nat)
    (webhooks : list Webhook) (r : HttpRequest) (net : Net) (webhook : Webhook) :
  In webhook webhooks ->
  url_ok (url_of webhook) = false ->
  exists msg, snd (checkWebhooks sched webhooks r net) = Panicked msg.
Proof.
  intros Hin Hbad. unfold AdmissionProxy.checkWebhooks.
  destruct webhooks as [|webhook0 rest]; [destruct Hin|].
  simpl Nat.eqb. cbv iota.
  assert (Hin' : In webhook (completion_order sched (webhook0 :: rest))).
  { apply list_elem_of_In.
    rewrite (completion_order_Permutation sched (webhook0 :: rest)).
    now apply list_elem_of_In. }
  destruct (collect_bad_url _ r webhook Hin' Hbad net) as [msg Hmsg].
  destruct (collect (completion_order sched (webhook0 :: rest)) r net)
    as [net1 [errCh|msg']]; simpl in *; [discriminate | eauto].
Qed.

End DispatchFacts.

(* ===================================================================== *)
(** ** Concrete cycles and dispatches                                     *)
(* ===================================================================== *)

Section Runs.

Import Controller AdmissionProxy.
Local Open Scope list_scope.

(** A cycle whose webhook create is refused: the error comes back, the
    resource keeps its empty finalizer list and nothing is published. *)
Lemma act_webhook_apply_first_witness :
  update (Scenario.state_of Scenario.fresh_resource true true) = true
  /\ act Scenario.refusing_create
         (Scenario.state_of Scenario.fresh_resource true true)
         Scenario.empty_world
     = (Some "admission webhook configuration: forbidden",
        Scenario.state_of Scenario.fresh_resource true true,
        {| events := [Called Create (WebhookObject "gesher-webhook")
                        (Some "admission webhook configuration: forbidden")];
           proxyTypeData := [] |}).
Proof.
  split; [reflexivity|].
  exact (proj1 (act_webhook_apply_first Scenario.refusing_create
                  (Scenario.state_of Scenario.fresh_resource true true)
                  Scenario.empty_world)
               "admission webhook configuration: forbidden" eq_refl eq_refl).
Defined.

(** A resource without the finalizer, not being deleted: it is added. A
    resource that has it, not being deleted: nothing is done. *)
Lemma manageFinalizer_lifecycle_witness :
  (fst (manageFinalizer (Scenario.state_of Scenario.fresh_resource false false))
   = true
   /\ Finalizers (customResource
        (snd (manageFinalizer (Scenario.state_of Scenario.fresh_resource false false))))
      <> [])
  /\ (containsString
        (Finalizers (customResource
                       (Scenario.state_of Scenario.lagging_resource false false)))
        typeFinalizer
      = negb (delete (Scenario.state_of Scenario.lagging_resource false false))
      /\ manageFinalizer (Scenario.state_of Scenario.lagging_resource false false)
         = (false, Scenario.state_of Scenario.lagging_resource false false)).
Proof.
  split.
  - split; [reflexivity|].
    exact (proj1 (proj1 (proj2 (manageFinalizer_lifecycle
                                  (Scenario.state_of Scenario.fresh_resource
                                     false false))))
                 eq_refl).
  - split; [reflexivity|].
    exact (proj1 (proj2 (proj2 (proj2 (manageFinalizer_lifecycle
                                         (Scenario.state_of
                                            Scenario.lagging_resource
                                            false false)))))
                 eq_refl).
Defined.

(** A settled resource whose generation moved: one status-only update. *)
Lemma act_minimal_writes_witness :
  exists calls,
    events (snd (act Scenario.accepting
                   (Scenario.state_of Scenario.lagging_resource false false)
                   Scenario.empty_world)) = [] ++ calls
    /\ count is_status_update calls = 1
    /\ count is_full_update calls = 0
    /\ count is_resource_write calls = 1.
Proof.
  destruct (act_minimal_writes Scenario.accepting
              (Scenario.state_of Scenario.lagging_resource false false)
              Scenario.empty_world) as (calls & Hev & _ & Hstatus & _).
  exists calls. split; [exact Hev|].
  apply Hstatus; [reflexivity | discriminate].
Defined.

(** A failed dial under both policies, and a denial under Ignore. *)
Lemma toFailure_policy_witness :
  is_failure (classify Scenario.json_Unmarshal None (Some "dial tcp: timeout"))
  = true
  /\ ((exists e, toFailure Scenario.json_Unmarshal "webhook" None
                   (Some "dial tcp: timeout") Fail = Returned (Some e))
      /\ toFailure Scenario.json_Unmarshal "webhook" None
           (Some "dial tcp: timeout") Ignore = Returned None).
Proof.
  split; [reflexivity|].
  exact (proj1 (toFailure_policy Scenario.json_Unmarshal "webhook" None
                  (Some "dial tcp: timeout")) eq_refl).
Defined.

(** C1 does not hold as stated: a parsed response with allowed=false is a
    DenialError, and under Ignore the call still gives an error, not nil. *)
Lemma denial_under_Ignore_is_an_error :
  classify Scenario.json_Unmarshal Scenario.denial_of_first None
  = Some (DenialError "first says no")
  /\ toFailure Scenario.json_Unmarshal "webhook" Scenario.denial_of_first None Ignore
     = Returned (Some "proxied webhook webhook denied the request: first says no")
  /\ toFailure Scenario.json_Unmarshal "webhook" Scenario.denial_of_first None Ignore
     <> Returned None.
Proof. split; [reflexivity|]. split; [reflexivity | discriminate]. Qed.

(** No endpoint, and two endpoints that allow. *)
Lemma checkWebhooks_allows_witness :
  Scenario.checkWebhooks [] [] Scenario.inbound Scenario.fresh_net
  = (Scenario.fresh_net, Returned approved)
  /\ Scenario.checkWebhooks [] [Scenario.endpoint "quiet"; Scenario.endpoint "calm"]
       Scenario.inbound Scenario.fresh_net
     = (fst (Scenario.collect [Scenario.endpoint "quiet"; Scenario.endpoint "calm"]
               Scenario.inbound Scenario.fresh_net),
        Returned approved).
Proof.
  pose proof (checkWebhooks_allows Scenario.json_Unmarshal Scenario.same_key
                Scenario.any_url Scenario.certsFromPEM Scenario.transport
                [] Scenario.inbound Scenario.fresh_net) as [[Hnone _] [Hall _]].
  split; [exact Hnone|].
  apply (Hall _ _ [None; None]); [vm_compute; reflexivity|].
  intros o [<-|[<-|[]]]; reflexivity.
Defined.

(** The environment of the scenario gives its one endpoint to a request
    for pods and to a request for deployments alike. *)
Lemma findWebhooks_ignores_request_witness :
  Scenario.findWebhooks Scenario.env Scenario.delete_pod
  = Scenario.findWebhooks Scenario.env Scenario.create_deployment
  /\ Scenario.findWebhooks Scenario.env Scenario.delete_pod
     = Returned [Scenario.validator]
  /\ exists webhook, [Scenario.validator] = [webhook].
Proof.
  pose proof (findWebhooks_ignores_request GoLib.base64_DecodeString
                GoLib.strconv_Atoi Scenario.env Scenario.delete_pod
                Scenario.create_deployment) as [Hsame Hone].
  split; [exact Hsame|].
  assert (Hr : Scenario.findWebhooks Scenario.env Scenario.delete_pod
               = Returned [Scenario.validator]) by (vm_compute; reflexivity).
  split; [exact Hr | exact (Hone _ Hr)].
Defined.

(** C4 does not hold as stated: the request for pods matches no declared
    rule, whether no rule is declared or deployments only, and an endpoint
    is selected all the same. *)
Lemma findWebhooks_selects_unmatched :
  Scenario.findWebhooks Scenario.env Scenario.delete_pod
  = Returned [Scenario.validator]
  /\ spec_endpoint_matches Scenario.no_rules Scenario.delete_pod
       Scenario.validator = false
  /\ spec_endpoint_matches Scenario.deployments_only Scenario.delete_pod
       Scenario.validator = false
  /\ [Scenario.validator]
     <> List.filter (spec_endpoint_matches Scenario.deployments_only
                       Scenario.delete_pod) [Scenario.validator].
Proof.
  split; [vm_compute; reflexivity|].
  split; [reflexivity|]. split; [reflexivity | discriminate].
Qed.

(** A complete environment, and one without the service name. *)
Lemma findWebhooks_checks_on_call_witness :
  Scenario.config_ok Scenario.env_without_name = false
  /\ (exists msg, Scenario.findWebhooks Scenario.env_without_name
                    Scenario.create_deployment = Panicked msg)
  /\ Scenario.config_ok Scenario.env = true
  /\ (exists webhook,
        Scenario.findWebhooks Scenario.env Scenario.create_deployment
        = Returned [webhook]
        /\ get webhook serviceName = "validator"
        /\ get webhook caBundle = "CA").
Proof.
  pose proof (findWebhooks_checks_on_call GoLib.base64_DecodeString
                GoLib.strconv_Atoi Scenario.env_without_name
                Scenario.create_deployment) as [Hbad _].
  pose proof (findWebhooks_checks_on_call GoLib.base64_DecodeString
                GoLib.strconv_Atoi Scenario.env
                Scenario.create_deployment) as [_ Hok].
  split; [vm_compute; reflexivity|].
  split; [apply Hbad; vm_compute; reflexivity|].
  split; [vm_compute; reflexivity|].
  destruct Hok as (webhook & Hr & Hname & _ & _ & _ & Hca);
    [vm_compute; reflexivity|].
  exists webhook. split; [exact Hr|]. split; [exact Hname|].
  assert (Hd : GoLib.base64_DecodeString
                 (Getenv Scenario.env "ADM_SERVICE_CABUNDLE") = Some "CA")
    by (vm_compute; reflexivity).
  rewrite Hd in Hca. now injection Hca as <-.
Defined.

(** C5 does not hold as stated: the endpoint is built inside
    [findWebhooks], which is given the admission request, and a missing
    service name makes this call panic. *)
Lemma findWebhooks_panics_on_request :
  Scenario.findWebhooks Scenario.env_without_name Scenario.delete_pod
  = Panicked "failed to read env variable ADM_SERVICE_NAME".
Proof. vm_compute. reflexivity. Qed.

(** Two denying endpoints, the second one finishing first. *)
Lemma checkWebhooks_first_completed_denial_witness :
  exists front e back,
    [Some Scenario.second_denies; Some Scenario.first_denies]
    = front ++ Some e :: back
    /\ Forall (eq None) front
    /\ Scenario.checkWebhooks [1]
         [Scenario.endpoint "first"; Scenario.endpoint "second"]
         Scenario.inbound Scenario.fresh_net
       = (fst (Scenario.collect
                 [Scenario.endpoint "second"; Scenario.endpoint "first"]
                 Scenario.inbound Scenario.fresh_net),
          Returned {| Allowed := false; Result := Some {| Message := e |} |}).
Proof.
  apply (checkWebhooks_first_completed_denial Scenario.json_Unmarshal
           Scenario.same_key Scenario.any_url Scenario.certsFromPEM
           Scenario.transport).
  - vm_compute. reflexivity.
  - exists Scenario.second_denies. left. reflexivity.
Defined.

(** C9 does not hold as stated: both endpoints deny, [first] is the first
    of them in the order of the endpoints, and when [second] completes
    first the message of the verdict is the one of [second]. *)
Lemma denial_message_follows_completion :
  snd (Scenario.doWebhook (Scenario.endpoint "first") Scenario.inbound
         Scenario.fresh_net)
  = Returned (Some Scenario.first_denies)
  /\ snd (Scenario.doWebhook (Scenario.endpoint "second") Scenario.inbound
            Scenario.fresh_net)
     = Returned (Some Scenario.second_denies)
  /\ completion_order [1] [Scenario.endpoint "first"; Scenario.endpoint "second"]
     = [Scenario.endpoint "second"; Scenario.endpoint "first"]
  /\ snd (Scenario.checkWebhooks [1]
            [Scenario.endpoint "first"; Scenario.endpoint "second"]
            Scenario.inbound Scenario.fresh_net)
     = Returned (errToAdmissionResponse Scenario.second_denies)
  /\ errToAdmissionResponse Scenario.second_denies
     <> errToAdmissionResponse Scenario.first_denies.
Proof.
  split; [vm_compute; reflexivity|]. split; [vm_compute; reflexivity|].
  split; [vm_compute; reflexivity|]. split; [vm_compute; reflexivity|].
  discriminate.
Qed.

(** An endpoint that allows and a host that does not exist. *)
Lemma dispatch_applies_Fail_witness :
  Scenario.checkWebhooks [] [Scenario.endpoint "quiet"; Scenario.endpoint "nobody"]
    Scenario.inbound Scenario.fresh_net
  = (fst (Scenario.collect [Scenario.endpoint "quiet"; Scenario.endpoint "nobody"]
            Scenario.inbound Scenario.fresh_net),
     Returned (errToAdmissionResponse Scenario.nobody_fails))
  /\ Allowed (errToAdmissionResponse Scenario.nobody_fails) = false.
Proof.
  assert (Hr : Scenario.checkWebhooks []
                 [Scenario.endpoint "quiet"; Scenario.endpoint "nobody"]
                 Scenario.inbound Scenario.fresh_net
               = (fst (Scenario.collect
                         [Scenario.endpoint "quiet"; Scenario.endpoint "nobody"]
                         Scenario.inbound Scenario.fresh_net),
                  Returned (errToAdmissionResponse Scenario.nobody_fails)))
    by (vm_compute; reflexivity).
  split; [exact Hr|].
  destruct (proj2 (dispatch_applies_Fail Scenario.json_Unmarshal
                     Scenario.same_key Scenario.any_url Scenario.certsFromPEM
                     Scenario.transport []
                     [Scenario.endpoint "quiet"; Scenario.endpoint "nobody"]
                     Scenario.inbound Scenario.fresh_net) _ _ Hr)
    as (xs & errCh & Hw & _ & _ & Hdeny).
  apply Hdeny. simpl in Hw. rewrite <- Hw.
  vm_compute. right. left. reflexivity.
Defined.

(** C8 on two endpoints. Both are given the inbound body through the one
    reader: the call that runs first sends the seven bytes, the other
    finds the reader at its end and sends a request of length zero, in
    whichever order the two run. Both endpoints answer, and the verdict is
    Allow. *)
Theorem shared_body_reaches_one_endpoint :
  unread (body Scenario.fresh_net) = "payload"
  /\ map Scenario.forwarded
       (wire (fst (Scenario.checkWebhooks []
                     [Scenario.endpoint "quiet"; Scenario.endpoint "calm"]
                     Scenario.inbound Scenario.fresh_net)))
     = [("https://quiet.default:443/validate", 7, "payload");
        ("https://calm.default:443/validate", 0, EmptyString)]
  /\ map Scenario.forwarded
       (wire (fst (Scenario.checkWebhooks [1]
                     [Scenario.endpoint "quiet"; Scenario.endpoint "calm"]
                     Scenario.inbound Scenario.fresh_net)))
     = [("https://calm.default:443/validate", 7, "payload");
        ("https://quiet.default:443/validate", 0, EmptyString)]
  /\ snd (Scenario.checkWebhooks []
            [Scenario.endpoint "quiet"; Scenario.endpoint "calm"]
            Scenario.inbound Scenario.fresh_net)
     = Returned approved.
Proof. repeat split; vm_compute; reflexivity. Qed.

(** The finalizer is added to an empty list. *)
Lemma manageFinalizer_NoDup_witness :
  NoDup (Finalizers (customResource
           (Scenario.state_of Scenario.fresh_resource false false)))
  /\ NoDup (Finalizers (customResource
              (snd (manageFinalizer
                      (Scenario.state_of Scenario.fresh_resource false false))))).
Proof.
  assert (H : NoDup (Finalizers (customResource
                       (Scenario.state_of Scenario.fresh_resource false false))))
    by constructor.
  split; [exact H|].
  exact (manageFinalizer_NoDup
           (Scenario.state_of Scenario.fresh_resource false false) H).
Defined.

(** A first cycle on the fresh resource succeeds; a second one on the
    state it left writes no resource. *)
Lemma act_converges_witness :
  fst (fst (act Scenario.accepting
              (Scenario.state_of Scenario.fresh_resource true true)
              Scenario.empty_world)) = None
  /\ exists calls,
       events (snd (act Scenario.accepting
                      (snd (fst (act Scenario.accepting
                                   (Scenario.state_of Scenario.fresh_resource true true)
                                   Scenario.empty_world)))
                      Scenario.empty_world))
       = events Scenario.empty_world ++ calls
       /\ count is_resource_write calls = 0.
Proof.
  split; [reflexivity|].
  exact (proj2 (act_converges Scenario.accepting
                  (Scenario.state_of Scenario.fresh_resource true true)
                  Scenario.empty_world eq_refl Scenario.empty_world)).
Defined.

(** A cycle for a resource that is found, on a cluster that accepts every
    write: the aggregate of the analyzed state is published. *)
Lemma Reconcile_outcome_witness :
  (forall request w, snd (Scenario.observe request w) = w)
  /\ (forall observed w, snd (Scenario.analyze observed w) = w)
  /\ fst (Reconcile Scenario.accepting Scenario.observe Scenario.analyze
            Scenario.a_request Scenario.empty_world)
     = Finished (no_requeue, None)
  /\ exists calls pre,
       events (snd (Reconcile Scenario.accepting Scenario.observe Scenario.analyze
                      Scenario.a_request Scenario.empty_world))
       = [] ++ calls
       /\ calls = pre ++ [Published ["1"]]
       /\ forallb succeeded pre = true.
Proof.
  assert (Ho : forall request w, snd (Scenario.observe request w) = w)
    by reflexivity.
  assert (Ha : forall observed w, snd (Scenario.analyze observed w) = w)
    by reflexivity.
  split; [exact Ho|]. split; [exact Ha|]. split; [reflexivity|].
  destruct (Reconcile_outcome Scenario.accepting Scenario.observe Scenario.analyze
              Scenario.a_request Scenario.empty_world Ho Ha)
    as (calls & Hev & _ & _ & Hnil).
  destruct (Hnil no_requeue eq_refl)
    as [_ [[Hgone _]|(observed & state & pre & Hobs & Hst & Hcalls & Hok & _)]].
  - discriminate Hgone.
  - exists calls, pre. split; [exact Hev|]. split; [|exact Hok].
    rewrite Hcalls. simpl in Hobs. injection Hobs as <-.
    simpl in Hst. injection Hst as <-. reflexivity.
Defined.

(** A failed dial under the misspelt policy [fail]. *)
Lemma toFailure_only_Fail_fails_witness :
  is_failure (classify Scenario.json_Unmarshal None (Some "dial tcp: timeout"))
  = true
  /\ toFailure Scenario.json_Unmarshal "webhook" None (Some "dial tcp: timeout")
       "fail" = Returned None.
Proof.
  split; [reflexivity|].
  apply (toFailure_only_Fail_fails Scenario.json_Unmarshal "webhook" None
           (Some "dial tcp: timeout") "fail" eq_refl).
  discriminate.
Defined.

(** The endpoint of the scenario's environment. *)
Lemma findWebhooks_endpoint_shape_witness :
  Scenario.findWebhooks Scenario.env Scenario.delete_pod
  = Returned [Scenario.validator]
  /\ exists webhook,
       [Scenario.validator] = [webhook]
       /\ url_of webhook = "https://validator.default:443/validate".
Proof.
  assert (Hr : Scenario.findWebhooks Scenario.env Scenario.delete_pod
               = Returned [Scenario.validator]) by (vm_compute; reflexivity).
  split; [exact Hr|].
  destruct (findWebhooks_endpoint_shape GoLib.base64_DecodeString
              GoLib.strconv_Atoi Scenario.env Scenario.delete_pod _ Hr)
    as (webhook & Hw & _ & _ & _ & _ & _ & _ & Hurl).
  exists webhook. split; [exact Hw|]. rewrite Hurl. reflexivity.
Defined.

(** The inbound Content-Type on the request sent to [quiet]. *)
Lemma doWebhook_forwards_headers_witness :
  Scenario.any_url (url_of (Scenario.endpoint "quiet")) = true
  /\ exists x,
       wire (fst (Scenario.doWebhook (Scenario.endpoint "quiet")
                    Scenario.inbound Scenario.fresh_net)) = [] ++ [x]
       /\ "application/json" ∈ default [] (Header (ex_request x) !! "Content-Type").
Proof.
  split; [reflexivity|].
  destruct (doWebhook_forwards_headers Scenario.json_Unmarshal Scenario.same_key
              Scenario.any_url Scenario.certsFromPEM Scenario.transport
              (Scenario.endpoint "quiet") Scenario.inbound Scenario.fresh_net
              eq_refl) as (x & Hw & Hh).
  exists x. split; [exact Hw|]. apply Hh.
  exists "Content-Type", ["application/json"].
  split; [reflexivity|]. split; [left | reflexivity].
Defined.

(** The keys of the inbound request are canonical. *)
Lemma doWebhook_forwards_headers_verbatim_witness :
  Scenario.any_url (url_of (Scenario.endpoint "quiet")) = true
  /\ (forall k, is_Some (Header Scenario.inbound !! k) -> Scenario.same_key k = k)
  /\ exists x,
       wire (fst (Scenario.doWebhook (Scenario.endpoint "quiet")
                    Scenario.inbound Scenario.fresh_net)) = [] ++ [x]
       /\ default [] (Header (ex_request x) !! "Content-Type")
          = ["application/json"].
Proof.
  assert (Hk : forall k, is_Some (Header Scenario.inbound !! k) ->
                         Scenario.same_key k = k) by reflexivity.
  split; [reflexivity|]. split; [exact Hk|].
  destruct (doWebhook_forwards_headers_verbatim Scenario.json_Unmarshal
              Scenario.same_key Scenario.any_url Scenario.certsFromPEM
              Scenario.transport (Scenario.endpoint "quiet") Scenario.inbound
              Scenario.fresh_net eq_refl Hk) as (x & Hw & Hh).
  exists x. split; [exact Hw|]. rewrite Hh. reflexivity.
Defined.

(** The seven bytes of the inbound body reach the one endpoint. *)
Lemma doWebhook_forwards_fresh_body_witness :
  Scenario.any_url (url_of (Scenario.endpoint "quiet")) = true
  /\ pos (body Scenario.fresh_net) = 0
  /\ (forall history client req avail,
        String.length avail
        <= rt_read (Scenario.sending_all history client req avail))
  /\ exists x,
       wire (fst (AdmissionProxy.doWebhook Scenario.json_Unmarshal
                    Scenario.same_key Scenario.any_url Scenario.certsFromPEM
                    Scenario.sending_all (Scenario.endpoint "quiet")
                    Scenario.inbound Scenario.fresh_net)) = [] ++ [x]
       /\ ex_sent x = "payload"
       /\ ContentLength (ex_request x) = 7.
Proof.
  assert (Ht : forall history client req avail,
             String.length avail
             <= rt_read (Scenario.sending_all history client req avail))
    by (intros; simpl; lia).
  split; [reflexivity|]. split; [reflexivity|]. split; [exact Ht|].
  destruct (doWebhook_forwards_fresh_body Scenario.json_Unmarshal
              Scenario.same_key Scenario.any_url Scenario.certsFromPEM
              Scenario.sending_all (Scenario.endpoint "quiet") Scenario.inbound
              Scenario.fresh_net eq_refl eq_refl Ht) as (x & Hw & Hs & Hc & _).
  exists x. auto.
Defined.

(** Both denying endpoints are called, in the order they complete. *)
Lemma checkWebhooks_calls_every_endpoint_witness :
  exists xs,
    wire (fst (Scenario.checkWebhooks [1]
                 [Scenario.endpoint "first"; Scenario.endpoint "second"]
                 Scenario.inbound Scenario.fresh_net)) = [] ++ xs
    /\ length xs = 2
    /\ map (fun x => URL (ex_request x)) xs
       ≡ₚ ["https://first.default:443/validate";
           "https://second.default:443/validate"].
Proof.
  apply (checkWebhooks_calls_every_endpoint Scenario.json_Unmarshal
           Scenario.same_key Scenario.any_url Scenario.certsFromPEM
           Scenario.transport [1]
           [Scenario.endpoint "first"; Scenario.endpoint "second"]
           Scenario.inbound Scenario.fresh_net _
           (errToAdmissionResponse Scenario.second_denies)).
  vm_compute. reflexivity.
Defined.

(** A denial before and after an allow. *)
Lemma merge_allows_in_any_order_witness :
  [Some Scenario.first_denies; None] ≡ₚ [None; Some Scenario.first_denies]
  /\ Allowed (merge [Some Scenario.first_denies; None])
     = Allowed (merge [None; Some Scenario.first_denies]).
Proof.
  assert (H : [Some Scenario.first_denies; None]
              ≡ₚ [None; Some Scenario.first_denies]) by apply perm_swap.
  split; [exact H | exact (merge_allows_in_any_order _ _ H)].
Defined.

(** The scenario's environment and network: [validator] is no host of
    the network, the call fails and the verdict denies. *)
Lemma dispatch_on_resolved_endpoint_witness :
  Scenario.findWebhooks Scenario.env Scenario.delete_pod
  = Returned [Scenario.validator]
  /\ exists x,
       wire (fst (Scenario.checkWebhooks [] [Scenario.validator]
                    Scenario.inbound Scenario.fresh_net)) = [] ++ [x]
       /\ URL (ex_request x) = "https://validator.default:443/validate"
       /\ RootCAs (ex_client x) = Some ["CA"].
Proof.
  assert (Hr : Scenario.findWebhooks Scenario.env Scenario.delete_pod
               = Returned [Scenario.validator]) by (vm_compute; reflexivity).
  split; [exact Hr|].
  destruct (dispatch_on_resolved_endpoint GoLib.base64_DecodeString
              GoLib.strconv_Atoi Scenario.json_Unmarshal Scenario.same_key
              Scenario.any_url Scenario.certsFromPEM Scenario.transport
              Scenario.env Scenario.delete_pod [Scenario.validator] []
              Scenario.inbound Scenario.fresh_net
              (fst (Scenario.checkWebhooks [] [Scenario.validator]
                      Scenario.inbound Scenario.fresh_net))
              (errToAdmissionResponse
                 "proxied webhook webhook failed: http error: dial tcp: lookup failed: no such host")
              Hr)
    as (x & data & Hw & Hurl & Hd & Hroots & _); [vm_compute; reflexivity|].
  exists x. split; [exact Hw|]. split; [rewrite Hurl; reflexivity|].
  assert (Hdata : GoLib.base64_DecodeString
                    (Getenv Scenario.env "ADM_SERVICE_CABUNDLE") = Some "CA")
    by (vm_compute; reflexivity).
  rewrite Hdata in Hd. injection Hd as <-. exact Hroots.
Defined.

(** An endpoint whose service name has a space, beside one that allows. *)
Lemma checkWebhooks_panics_on_bad_url_witness :
  In (Scenario.endpoint "my svc")
     [Scenario.endpoint "quiet"; Scenario.endpoint "my svc"]
  /\ Scenario.no_space (url_of (Scenario.endpoint "my svc")) = false
  /\ exists msg,
       snd (AdmissionProxy.checkWebhooks Scenario.json_Unmarshal Scenario.same_key
              Scenario.no_space Scenario.certsFromPEM Scenario.transport []
              [Scenario.endpoint "quiet"; Scenario.endpoint "my svc"]
              Scenario.inbound Scenario.fresh_net) = Panicked msg.
Proof.
  assert (Hin : In (Scenario.endpoint "my svc")
                   [Scenario.endpoint "quiet"; Scenario.endpoint "my svc"])
    by (right; left; reflexivity).
  split; [exact Hin|]. split; [reflexivity|].
  exact (checkWebhooks_panics_on_bad_url Scenario.json_Unmarshal
           Scenario.same_key Scenario.no_space Scenario.certsFromPEM
           Scenario.transport [] _ Scenario.inbound Scenario.fresh_net
           (Scenario.endpoint "my svc") Hin eq_refl).
Defined.

End Runs.
